(** * Options screener: the trade evaluator (route [POST /api/evaluate-trades])

    A shallow embedding of the V2 evaluator of [evaluatetrades.ts] and the
    properties its specification states about it.

    Numbers.  A JavaScript [number] is modelled as [num]: either [NaN] or an
    exact rational [Fin q].  Arithmetic is exact (no binary rounding), so the
    development describes the algorithm, not the last bit of a double.  The
    numeric fields of a request are taken to be finite: the fields of
    [Trade] and [Tolerances] are rationals, and a JSON literal beyond the
    range of a double (such as [1e999], which reaches the program as
    [Infinity]) is not modelled.  Every statement below is therefore about
    trades with finite numeric fields.  [NaN] appears only as the result
    of reading a date that does not parse, and propagates as in JavaScript
    (every comparison with it is false).

    The file has three parts: the program (numbers, dates, data model,
    the evaluator and the route handler, in the order of the source; then
    the earlier version of the evaluator and the CORS policies of the two
    versions of the server), the definitions the statements need, and the
    properties. *)

From Stdlib Require Import ZArith QArith Qround Qabs Qminmax.
From Stdlib Require Import Bool List String Ascii Lia Lqa.
Import ListNotations.

Local Open Scope Q_scope.

(** ** JavaScript numbers *)

Inductive num : Type :=
| NaN : num
| Fin : Q -> num.

Definition Qlt_bool (a b : Q) : bool := negb (Qle_bool b a).

Definition lift2 (f : Q -> Q -> Q) (a b : num) : num :=
  match a, b with
  | Fin x, Fin y => Fin (f x y)
  | _, _ => NaN
  end.

Definition nadd : num -> num -> num := lift2 Qplus.
Definition nsub : num -> num -> num := lift2 Qminus.
Definition nmul : num -> num -> num := lift2 Qmult.

(** [a / b].  The program guards each of its divisions ([strike > 0],
    [tol > 0], [dte >= 1], [overRatio > 1], [totalPossible > 0]), so that
    none has a zero divisor and a number to divide; the infinities such a
    division would give are not modelled, and [NaN] stands in their place. *)
Definition ndiv (a b : num) : num :=
  match a, b with
  | Fin x, Fin y => if Qeq_bool y 0 then NaN else Fin (x / y)
  | _, _ => NaN
  end.

(** The relational operators [<=], [<], [>=], [>]: false as soon as one side
    is [NaN]. *)
Definition nle (a b : num) : bool :=
  match a, b with
  | Fin x, Fin y => Qle_bool x y
  | _, _ => false
  end.

Definition nlt (a b : num) : bool :=
  match a, b with
  | Fin x, Fin y => Qlt_bool x y
  | _, _ => false
  end.

Definition nge (a b : num) : bool := nle b a.
Definition ngt (a b : num) : bool := nlt b a.

Definition Math_max (a b : num) : num :=
  match a, b with
  | Fin x, Fin y => Fin (if Qle_bool x y then y else x)
  | _, _ => NaN
  end.

Definition Math_min (a b : num) : num :=
  match a, b with
  | Fin x, Fin y => Fin (if Qle_bool x y then x else y)
  | _, _ => NaN
  end.

Definition Math_ceil (a : num) : num :=
  match a with
  | Fin x => Fin (inject_Z (Qceiling x))
  | NaN => NaN
  end.

(** [parseFloat(x.toFixed(f))].  [toFixed] takes the integer [n] for which
    [n / 10^f] is closest to [|x|], the larger one on a tie, and keeps the
    sign; from [10^21] on it prints the number itself. *)
Definition pow10 (f : nat) : Q := inject_Z (10 ^ Z.of_nat f).

Definition roundHalfUp (x : Q) : Z := Qfloor (x + (1 # 2)).

Definition toFixedQ (f : nat) (x : Q) : Q :=
  if Qle_bool (pow10 21) (Qabs x) then x
  else if Qlt_bool x 0
       then - (inject_Z (roundHalfUp (- x * pow10 f)) / pow10 f)
       else inject_Z (roundHalfUp (x * pow10 f)) / pow10 f.

Definition toFixed (f : nat) (a : num) : num :=
  match a with
  | Fin x => Fin (toFixedQ f x)
  | NaN => NaN
  end.

(** Equality of numbers as values: rationals up to [==]. *)
Definition num_eq (a b : num) : Prop :=
  match a, b with
  | NaN, NaN => True
  | Fin x, Fin y => x == y
  | _, _ => False
  end.

Infix "=n=" := num_eq (at level 70, no associativity).

(** ** Dates

    [new Date(s).getTime()] for the date-only form [YYYY-MM-DD] of the
    [Trade] interface: milliseconds since the epoch of that day's midnight
    UTC.  A string that is not a calendar date in that form is taken as an
    invalid date, whose time value is [NaN]; the other forms a JavaScript
    engine may accept (date-time strings, engine-specific formats) are
    outside the interface and are not modelled.  [dteOfTimes] below is
    stated on time values, whatever string they come from. *)

Local Open Scope Z_scope.

Definition digit (c : ascii) : option Z :=
  let n := Z.of_nat (nat_of_ascii c) in
  if (48 <=? n) && (n <=? 57) then Some (n - 48) else None.

Definition isLeap (y : Z) : bool :=
  ((y mod 4 =? 0) && negb (y mod 100 =? 0)) || (y mod 400 =? 0).

Definition daysInMonth (y m : Z) : Z :=
  if m =? 2 then (if isLeap y then 29 else 28)
  else if (m =? 4) || (m =? 6) || (m =? 9) || (m =? 11) then 30
  else 31.

(** Day number of a civil date, counted from 1970-01-01. *)
Definition daysFromCivil (y m d : Z) : Z :=
  let y' := if m <=? 2 then y - 1 else y in
  let era := y' / 400 in
  let yoe := y' - era * 400 in
  let mp := (m + 9) mod 12 in
  let doy := (153 * mp + 2) / 5 + d - 1 in
  let doe := yoe * 365 + yoe / 4 - yoe / 100 + doy in
  era * 146097 + doe - 719468.

Definition msPerDay : Z := 1000 * 60 * 60 * 24.

Definition parseDate (s : string) : option Z :=
  match list_ascii_of_string s with
  | [y1; y2; y3; y4; s1; m1; m2; s2; d1; d2] =>
      match digit y1, digit y2, digit y3, digit y4,
            digit m1, digit m2, digit d1, digit d2 with
      | Some a, Some b, Some c, Some d, Some e, Some f, Some g, Some h =>
          let y := 1000 * a + 100 * b + 10 * c + d in
          let m := 10 * e + f in
          let dd := 10 * g + h in
          if (Ascii.eqb s1 "-") && (Ascii.eqb s2 "-")
             && (1 <=? m) && (m <=? 12) && (1 <=? dd) && (dd <=? daysInMonth y m)
          then Some (daysFromCivil y m dd * msPerDay)
          else None
      | _, _, _, _, _, _, _, _ => None
      end
  | _ => None
  end.

Definition Date_getTime (s : string) : num :=
  match parseDate s with
  | Some ms => Fin (inject_Z ms)
  | None => NaN
  end.

Local Open Scope Q_scope.

(** ** Data model *)

(** [interface Tolerances]: each field is optional; [Some q] is a field
    whose [typeof] is ["number"]. *)
Record Tolerances : Type := {
  maxDTE : option Q;
  minROI : option Q;
  maxBeta : option Q;
  maxDelta : option Q
}.

Inductive OptionType : Type := put | call.

Record Trade : Type := {
  symbol : string;
  tradeDate : string;
  expirationDate : string;
  type : OptionType;
  strike : Q;
  bid : Q;
  supportLevel : option Q;
  beta : Q;
  delta : Q
}.

Inductive Suggestion : Type := Conservative | Neutral | Aggressive.

(** A note is a template literal: its text and the numbers interpolated in
    it, each with the way it is printed. *)
Inductive NotePiece : Type :=
| Lit (s : string)
| Fixed (digits : nat) (x : num)
| Plain (x : num).

Module Part.
Record t : Type := {
  key : string;
  label : string;
  max : Q;
  earned : num;
  note : list NotePiece
}.
End Part.

(** The object returned for one trade: the trade's own fields ([...trade])
    and the computed ones. *)
Module Evaluated.
Record t : Type := {
  trade : Trade;
  premium : Q;
  breakeven : Q;
  annualROI : num;
  dte : num;
  score : num;
  suggestion : Suggestion;
  collateralAtRisk : Q;
  supportVariancePct : option Q;
  hardFail : bool;
  breakdown : list Part.t;
  totalPossible : Q;
  pointsBeforePenalties : num;
  penaltiesApplied : num;
  pointsFinal : num
}.
End Evaluated.

(** The running totals of the scoring stage ([let score], [let
    totalPossible], [let penaltyPool]) and the breakdown array, threaded
    through the criteria. *)
Record Acc : Type := {
  score : num;
  totalPossible : Q;
  penaltyPool : num;
  breakdown : list Part.t
}.

(** ** Derived metrics *)

Definition dteOfTimes (expiration trade : num) : num :=
  Math_max (Fin 1)
    (Math_ceil (ndiv (nsub expiration trade) (Fin (inject_Z msPerDay)))).

Definition dte (t : Trade) : num :=
  dteOfTimes (Date_getTime (expirationDate t)) (Date_getTime (tradeDate t)).

Definition premium (t : Trade) : Q := bid t * 100.

Definition breakeven (t : Trade) : Q :=
  match type t with
  | put => strike t - bid t
  | call => strike t + bid t
  end.

Definition annualROI (t : Trade) : num :=
  nmul (Fin (if Qlt_bool 0 (strike t) then bid t / strike t else 0))
       (ndiv (Fin 365) (dte t)).

Definition collateralAtRisk (t : Trade) : Q := strike t * 100.

Definition supportVariancePct (t : Trade) : option Q :=
  match type t, supportLevel t with
  | put, Some s =>
      if Qlt_bool 0 (strike t)
      then Some (((s - strike t) / strike t) * 100)
      else None
  | _, _ => None
  end.

(** ** Hard fail *)

(** [tolerances?.f] with the [typeof ... === "number"] test. *)
Definition field (f : Tolerances -> option Q) (tolerances : option Tolerances)
  : option Q :=
  match tolerances with
  | Some o => f o
  | None => None
  end.

Definition hardFailThreshold (tolerances : option Tolerances) : Q :=
  match field minROI tolerances with
  | Some m => m
  | None => 30 # 100
  end.

Definition hardFail (tolerances : option Tolerances) (t : Trade) : bool :=
  nlt (annualROI t) (Fin (hardFailThreshold tolerances)).

(** ** Scoring *)

Definition heavyPenalty (val : num) (tol : Q) : num :=
  if nle val (Fin tol) then Fin 1
  else
    let ratio := if Qlt_bool 0 tol then ndiv (Fin tol) val else Fin 0 in
    Math_max (Fin 0) (Math_min (Fin 1) (nmul ratio ratio)).

Definition maxPenaltyPool : Q := 15.

Definition addPenaltyFromExceedance (overRatio : num) : num :=
  if nle overRatio (Fin 1) then Fin 0
  else Math_max (Fin 0) (nsub (Fin 1) (ndiv (Fin 1) overRatio)).

Definition acc0 : Acc :=
  {| score := Fin 0; totalPossible := 0; penaltyPool := Fin 0; breakdown := [] |}.

(** [totalPossible += W; score += earned; breakdown.push(part);
    penaltyPool += pen]. *)
Definition record (p : Part.t) (pen : num) (a : Acc) : Acc :=
  {| score := nadd (score a) (Part.earned p);
     totalPossible := totalPossible a + Part.max p;
     penaltyPool := nadd (penaltyPool a) pen;
     breakdown := breakdown a ++ [p] |}.

Definition pct (x : num) : num := nmul x (Fin 100).

Definition scoreROI (tolerances : option Tolerances) (roi : num) (a : Acc) : Acc :=
  match field minROI tolerances with
  | Some m =>
      let W := 35 in
      if nge roi (Fin m)
      then record (Part.Build_t "roi" "Annual ROI" W (Fin W)
                     [Lit "Meets or exceeds minimum ROI"]) (Fin 0) a
      else
        let earned := Math_max (Fin 0) (nmul (ndiv roi (Fin m)) (Fin W)) in
        record (Part.Build_t "roi" "Annual ROI" W earned
                  [Lit "Below min ROI ("; Fixed 1 (pct roi); Lit "% vs ";
                   Fixed 1 (pct (Fin m)); Lit "%)"]) (Fin 0) a
  | None => a
  end.

(** The block shared by the three ceilings (delta, DTE, beta): the
    criterion counts when its tolerance is a number above zero; within the
    tolerance it earns [W], beyond it [W * heavyPenalty] and the exceedance
    feeds the penalty pool. *)
Definition scoreCeiling (key label : string) (W : Q) (value : num)
    (tolerance : option Q) (within : list NotePiece)
    (exceeds : Q -> list NotePiece) (a : Acc) : Acc :=
  match tolerance with
  | Some tol =>
      if Qlt_bool 0 tol then
        if nle value (Fin tol)
        then record (Part.Build_t key label W (Fin W) within) (Fin 0) a
        else
          let factor := heavyPenalty value tol in
          let earned := nmul (Fin W) factor in
          record (Part.Build_t key label W earned (exceeds tol))
                 (addPenaltyFromExceedance (ndiv value (Fin tol))) a
      else a
  | None => a
  end.

Definition scoreDelta (tolerances : option Tolerances) (t : Trade) : Acc -> Acc :=
  scoreCeiling "delta" "Delta" 25 (Fin (delta t)) (field maxDelta tolerances)
    [Lit "Within max delta"]
    (fun tol => [Lit "Exceeds max delta ("; Fixed 1 (pct (Fin (delta t)));
                 Lit "% > "; Fixed 1 (pct (Fin tol)); Lit "%)"]).

Definition scoreDTE (tolerances : option Tolerances) (d : num) : Acc -> Acc :=
  scoreCeiling "dte" "DTE" 15 d (field maxDTE tolerances)
    [Lit "Within max DTE"]
    (fun tol => [Lit "Exceeds max DTE ("; Plain d; Lit "d > ";
                 Plain (Fin tol); Lit "d)"]).

Definition scoreBeta (tolerances : option Tolerances) (t : Trade) : Acc -> Acc :=
  scoreCeiling "beta" "Beta" 5 (Fin (beta t)) (field maxBeta tolerances)
    [Lit "Within max beta"]
    (fun tol => [Lit "Exceeds max beta ("; Fixed 2 (Fin (beta t));
                 Lit " > "; Fixed 2 (Fin tol); Lit ")"]).

Definition scoreCollateral (collateral : Q) (a : Acc) : Acc :=
  let W := 10 in
  let '(earned, note) :=
    if Qlt_bool collateral 20000 then (10, "Low collateral"%string)
    else if Qle_bool collateral 50000 then (5, "Moderate collateral"%string)
    else (2, "High collateral"%string) in
  record (Part.Build_t "collateral" "Collateral at Risk" W (Fin earned)
            [Lit note]) (Fin 0) a.

Definition scoreSupport (support : option Q) (a : Acc) : Acc :=
  match support with
  | Some v =>
      let W := 10 in
      let '(earned, note) :=
        if Qle_bool 10 v then (10, "Strong support buffer (≥10%)"%string)
        else if Qle_bool 5 v then (5, "Moderate support buffer (5–10%)"%string)
        else (2, "Support variance < 5%"%string) in
      record (Part.Build_t "support" "Support Variance %" W (Fin earned)
                [Lit note]) (Fin 0) a
  | None => a
  end.

(** The six criteria in the order of the source. *)
Definition scoring (tolerances : option Tolerances) (t : Trade) : Acc :=
  scoreSupport (supportVariancePct t)
    (scoreCollateral (collateralAtRisk t)
       (scoreBeta tolerances t
          (scoreDTE tolerances (dte t)
             (scoreDelta tolerances t
                (scoreROI tolerances (annualROI t) acc0))))).

(** ** Penalty pool, normalisation and bucket *)

Definition penaltiesApplied (a : Acc) : num :=
  Math_min (Fin maxPenaltyPool)
    (nmul (Fin maxPenaltyPool)
          (Math_max (Fin 0) (Math_min (Fin 1) (penaltyPool a)))).

Definition pointsBeforePenalties (a : Acc) : num := score a.

Definition pointsFinal (a : Acc) : num :=
  Math_max (Fin 0) (nsub (score a) (penaltiesApplied a)).

Definition finalScore (a : Acc) : num :=
  if Qlt_bool 0 (totalPossible a)
  then nmul (ndiv (pointsFinal a) (Fin (totalPossible a))) (Fin 100)
  else Fin 100.

Definition suggestionOf (finalScore : num) : Suggestion :=
  if nge finalScore (Fin 90) then Conservative
  else if nge finalScore (Fin 70) then Neutral
  else Aggressive.

(** ** One trade *)

Definition hardFailPart (tolerances : option Tolerances) (t : Trade) : Part.t :=
  Part.Build_t "roi-hard-fail" "Annual ROI" 35 (Fin 0)
    [Lit "Hard fail: ROI "; Fixed 1 (pct (annualROI t)); Lit "% < ";
     Fixed 1 (pct (Fin (hardFailThreshold tolerances))); Lit "%"].

Definition evaluateTrade (tolerances : option Tolerances) (t : Trade)
  : Evaluated.t :=
  if hardFail tolerances t then
    {| Evaluated.trade := t;
       Evaluated.premium := premium t;
       Evaluated.breakeven := breakeven t;
       Evaluated.annualROI := toFixed 4 (annualROI t);
       Evaluated.dte := dte t;
       Evaluated.score := Fin 0;
       Evaluated.suggestion := Aggressive;
       Evaluated.collateralAtRisk := collateralAtRisk t;
       Evaluated.supportVariancePct := supportVariancePct t;
       Evaluated.hardFail := true;
       Evaluated.breakdown := [hardFailPart tolerances t];
       Evaluated.totalPossible := 35;
       Evaluated.pointsBeforePenalties := Fin 0;
       Evaluated.penaltiesApplied := Fin 0;
       Evaluated.pointsFinal := Fin 0 |}
  else
    let a := scoring tolerances t in
    {| Evaluated.trade := t;
       Evaluated.premium := premium t;
       Evaluated.breakeven := breakeven t;
       Evaluated.annualROI := toFixed 4 (annualROI t);
       Evaluated.dte := dte t;
       Evaluated.score := toFixed 1 (finalScore a);
       Evaluated.suggestion := suggestionOf (finalScore a);
       Evaluated.collateralAtRisk := collateralAtRisk t;
       Evaluated.supportVariancePct := supportVariancePct t;
       Evaluated.hardFail := false;
       Evaluated.breakdown := breakdown a;
       Evaluated.totalPossible := totalPossible a;
       Evaluated.pointsBeforePenalties := toFixed 2 (pointsBeforePenalties a);
       Evaluated.penaltiesApplied := toFixed 2 (penaltiesApplied a);
       Evaluated.pointsFinal := toFixed 2 (pointsFinal a) |}.

(** ** The route handler *)

(** What [req.body.trades] can be after [express.json()]. *)
Inductive JsValue : Type :=
| JUndefined
| JNull
| JBoolean (b : bool)
| JNumber (q : Q)
| JString (s : string)
| JObject
| JArray (items : list Trade).

Record Body : Type := {
  tolerances : option Tolerances;
  trades : JsValue
}.

Inductive Response : Type :=
| Status400 (error : string)
| Status200 (results : list Evaluated.t).

Definition Array_isArray (v : JsValue) : bool :=
  match v with
  | JArray _ => true
  | _ => false
  end.

Definition arrayItems (v : JsValue) : list Trade :=
  match v with
  | JArray items => items
  | _ => []
  end.

Definition handler (body : Body) : Response :=
  if negb (Array_isArray (trades body))
     || (List.length (arrayItems (trades body)) =? 0)%nat
  then Status400 "No trades provided"
  else Status200 (map (evaluateTrade (tolerances body)) (arrayItems (trades body))).

(** * The earlier evaluator (V1)

    The first version of the route scores four criteria proportionally,
    with no hard fail, no collateral or support criterion and no penalty
    pool.  It divides by the strike, by delta and by beta without a guard,
    so its numbers can be infinite: [xnum] adds the two infinities to
    [num].  Zero has no sign here: every divisor that can be zero is a
    number of the request, taken to be [+0] (a request that spells a zero
    as [-0] is not modelled). *)

Inductive xnum : Type :=
| XNaN : xnum
| XInf (negative : bool) : xnum
| XFin (q : Q) : xnum.

Definition ofNum (a : num) : xnum :=
  match a with
  | NaN => XNaN
  | Fin q => XFin q
  end.

Definition xadd (a b : xnum) : xnum :=
  match a, b with
  | XNaN, _ => XNaN
  | _, XNaN => XNaN
  | XFin x, XFin y => XFin (x + y)
  | XInf n, XFin _ => XInf n
  | XFin _, XInf n => XInf n
  | XInf n, XInf m => if Bool.eqb n m then XInf n else XNaN
  end.

Definition xmul (a b : xnum) : xnum :=
  match a, b with
  | XNaN, _ => XNaN
  | _, XNaN => XNaN
  | XFin x, XFin y => XFin (x * y)
  | XInf n, XFin y => if Qeq_bool y 0 then XNaN else XInf (xorb n (Qlt_bool y 0))
  | XFin x, XInf n => if Qeq_bool x 0 then XNaN else XInf (xorb n (Qlt_bool x 0))
  | XInf n, XInf m => XInf (xorb n m)
  end.

Definition xdiv (a b : xnum) : xnum :=
  match a, b with
  | XNaN, _ => XNaN
  | _, XNaN => XNaN
  | XFin x, XFin y =>
      if Qeq_bool y 0
      then (if Qeq_bool x 0 then XNaN else XInf (Qlt_bool x 0))
      else XFin (x / y)
  | XInf n, XFin y => XInf (xorb n (Qlt_bool y 0))
  | XFin _, XInf _ => XFin 0
  | XInf _, XInf _ => XNaN
  end.

Definition xle (a b : xnum) : bool :=
  match a, b with
  | XNaN, _ => false
  | _, XNaN => false
  | XFin x, XFin y => Qle_bool x y
  | XInf true, _ => true
  | XInf false, XInf false => true
  | XInf false, _ => false
  | XFin _, XInf n => negb n
  end.

Definition xge (a b : xnum) : bool := xle b a.

(** [Math.max(a, b)]. *)
Definition xmax (a b : xnum) : xnum :=
  match a, b with
  | XNaN, _ => XNaN
  | _, XNaN => XNaN
  | _, _ => if xle a b then b else a
  end.

(** The number a string printed by [toFixed] reads as. *)
Definition xtoFixed (f : nat) (a : xnum) : xnum :=
  match a with
  | XFin x => XFin (toFixedQ f x)
  | other => other
  end.

(** The string [x.toFixed(digits)], kept as the number and the digits. *)
Inductive Printed : Type :=
| ToFixed (digits : nat) (x : xnum).

Definition valueOf (p : Printed) : xnum :=
  match p with
  | ToFixed f x => xtoFixed f x
  end.

Module V1.

Inductive Suggestion : Type := Green | Yellow | Red.

(** The object returned for one trade. *)
Module Result.
Record t : Type := {
  trade : Trade;
  premium : Q;
  breakeven : Q;
  annualROI : Printed;
  dte : num;
  score : Printed;
  suggestion : Suggestion
}.
End Result.

(** [let score], [let totalPossible].  The tolerances are read as
    [tolerances.f !== undefined], on an object that is there (the route
    throws otherwise): a field is [Some] when it is defined.  Of the trade,
    this version reads the dates, the type, strike, bid, beta and delta;
    [supportLevel] is only echoed. *)
Record Acc : Type := {
  points : xnum;
  possible : Q
}.

(** [((bid * 100) / (strike * 100)) / dte * 365]; the days to expiration
    are computed as in the later version. *)
Definition annualROI (t : Trade) : xnum :=
  xmul (xdiv (xdiv (XFin (bid t * 100)) (XFin (strike t * 100)))
             (ofNum (dte t)))
       (XFin 365).

(** [totalPossible += W; if (met) score += W; else score += Math.max(0,
    ratio * W)]. *)
Definition credit (W : Q) (met : bool) (ratio : xnum) (a : Acc) : Acc :=
  {| points := xadd (points a)
                 (if met then XFin W
                  else xmax (XFin 0) (xmul ratio (XFin W)));
     possible := possible a + W |}.

Definition scoreROI (tolerances : Tolerances) (r : xnum) (a : Acc) : Acc :=
  match minROI tolerances with
  | Some m => credit 40 (xge r (XFin m)) (xdiv r (XFin m)) a
  | None => a
  end.

Definition scoreDelta (tolerances : Tolerances) (t : Trade) (a : Acc) : Acc :=
  match maxDelta tolerances with
  | Some m => credit 30 (Qle_bool (delta t) m)
                (xdiv (XFin m) (XFin (delta t))) a
  | None => a
  end.

Definition scoreDTE (tolerances : Tolerances) (d : num) (a : Acc) : Acc :=
  match maxDTE tolerances with
  | Some m => credit 20 (nle d (Fin m)) (xdiv (XFin m) (ofNum d)) a
  | None => a
  end.

Definition scoreBeta (tolerances : Tolerances) (t : Trade) (a : Acc) : Acc :=
  match maxBeta tolerances with
  | Some m => credit 10 (Qle_bool (beta t) m)
                (xdiv (XFin m) (XFin (beta t))) a
  | None => a
  end.

Definition scoring (tolerances : Tolerances) (t : Trade) : Acc :=
  scoreBeta tolerances t
    (scoreDTE tolerances (dte t)
       (scoreDelta tolerances t
          (scoreROI tolerances (annualROI t)
             {| points := XFin 0; possible := 0 |}))).

Definition finalScore (a : Acc) : xnum :=
  if Qlt_bool 0 (possible a)
  then xmul (xdiv (points a) (XFin (possible a))) (XFin 100)
  else XFin 100.

Definition suggestionOf (finalScore : xnum) : Suggestion :=
  if xge finalScore (XFin 85) then Green
  else if xge finalScore (XFin 60) then Yellow
  else Red.

Definition evaluateTrade (tolerances : Tolerances) (t : Trade) : Result.t :=
  let a := scoring tolerances t in
  {| Result.trade := t;
     Result.premium := premium t;
     Result.breakeven := breakeven t;
     Result.annualROI := ToFixed 4 (annualROI t);
     Result.dte := dte t;
     Result.score := ToFixed 1 (finalScore a);
     Result.suggestion := suggestionOf (finalScore a) |}.

(** The answers of the route: the 400 of the validation, the evaluated
    trades, or the [TypeError] thrown by [tolerances.minROI] when the body
    has no tolerances object. *)
Inductive Response : Type :=
| Status400 (error : string)
| Status200 (results : list Result.t)
| Throws.

Definition handler (b : Body) : Response :=
  if negb (Array_isArray (trades b))
     || (List.length (arrayItems (trades b)) =? 0)%nat
  then Status400 "No trades provided"
  else match tolerances b with
       | Some tol => Status200 (map (evaluateTrade tol) (arrayItems (trades b)))
       | None => Throws
       end.

End V1.

(** * The server: the two CORS policies and their error handlers

    [index.ts] exists in two versions.  Both install the [cors] middleware
    with an [origin] callback, which either accepts the origin
    ([cb(null, true)]) or fails it with an [Error], and both end the chain
    with an error handler.  What the middleware itself does with the
    callback's answer is not part of the repository and is not modelled.
    The values read from the environment are taken as they are after
    [trim] and [filter(Boolean)]. *)

(** A non-empty string is truthy. *)
Definition truthy (s : string) : bool :=
  match s with
  | EmptyString => false
  | String _ _ => true
  end.

(** [s.endsWith(suffix)] and [s.includes(sub)]. *)
Fixpoint endsWith (s suffix : string) : bool :=
  String.eqb s suffix
  || match s with
     | EmptyString => false
     | String _ rest => endsWith rest suffix
     end.

Fixpoint includes (s sub : string) : bool :=
  String.prefix sub s
  || match s with
     | EmptyString => false
     | String _ rest => includes rest sub
     end.

(** [list.includes(x)] on strings. *)
Definition listIncludes (l : list string) (x : string) : bool :=
  existsb (String.eqb x) l.

Inductive CorsDecision : Type :=
| Allowed
| Blocked (message : string).

(** A JSON answer: the status and the fields of the body. *)
Record HttpResponse : Type := {
  status : Z;
  body : list (string * string)
}.

(** The later version (health check, preview suffix). *)
Module Server.

Record Config : Type := {
  exactOrigins : list string;
  previewSuffix : string;
  localOrigin : string
}.

(** [corsOptions.origin]; [None] is a request without an [Origin] header. *)
Definition origin (cfg : Config) (o : option string) : CorsDecision :=
  match o with
  | None => Allowed
  | Some o =>
      if negb (truthy o) then Allowed
      else if listIncludes (exactOrigins cfg) o then Allowed
      else if truthy (localOrigin cfg) && String.eqb o (localOrigin cfg)
           then Allowed
      else if truthy (previewSuffix cfg) && endsWith o (previewSuffix cfg)
           then Allowed
      else Blocked "Not allowed by CORS"
  end.

(** The global error handler; [message] is [err?.message], [None] when
    there is none. *)
Definition errorHandler (message : option string) : HttpResponse :=
  match message with
  | Some m =>
      if includes m "CORS"
      then {| status := 403;
              body := [("error", "CORS blocked"); ("details", m)]%string |}
      else {| status := 500;
              body := [("error", "Internal Server Error")]%string |}
  | None => {| status := 500;
               body := [("error", "Internal Server Error")]%string |}
  end.

End Server.

(** The earlier version (a list of allowed origins). *)
Module ServerV1.

(** [["http://localhost:3000", process.env.FRONTEND_URL || ""].filter(Boolean)];
    [None] is an unset variable. *)
Definition allowedOrigins (frontendUrl : option string) : list string :=
  filter truthy
    ["http://localhost:3000"%string;
     match frontendUrl with
     | Some u => if truthy u then u else ""%string
     | None => ""%string
     end].

Definition origin (frontendUrl : option string) (o : option string)
  : CorsDecision :=
  match o with
  | None => Allowed
  | Some o =>
      if negb (truthy o) || listIncludes (allowedOrigins frontendUrl) o
      then Allowed
      else Blocked ("CORS blocked: " ++ o)
  end.

Definition errorHandler (message : option string) : HttpResponse :=
  {| status := 500; body := [("error", "Internal server error")]%string |}.

End ServerV1.

(** * Definitions used by the statements *)

(** ** Well-formed trades

    The data model gives a trade two calendar dates; [validDates] says so of
    the two date strings of a request.  It is the same as [dte] being a
    number ([validDates_iff_dte]), and then the annual ROI is one too. *)

Definition validDates (t : Trade) : bool :=
  match parseDate (tradeDate t), parseDate (expirationDate t) with
  | Some _, Some _ => true
  | _, _ => false
  end.

(** The whole days between two time values, rounded up, at least one. *)
Definition daysBetween (expiration trade : Z) : Z :=
  Z.max 1 (Qceiling (inject_Z (expiration - trade) / inject_Z msPerDay)).

(** ** The formulas of the specification

    These definitions follow the words of the specification (stages 3 and
    4), on rationals; the theorems compare them with the code. *)

Definition clamp01 (x : Q) : Q := Qmax 0 (Qmin 1 x).

Definition heavyPenalty_spec (value tolerance : Q) : Q :=
  if Qle_bool value tolerance then 1 else clamp01 ((tolerance / value) ^ 2).

Definition severity_spec (value tolerance : Q) : Q :=
  Qmax 0 (1 - 1 / (value / tolerance)).

(** A criterion exceeds its tolerance when the tolerance is set, positive,
    and strictly below the value. *)
Definition exceeds_spec (value : Q) (tolerance : option Q) : bool :=
  match tolerance with
  | Some tol => Qlt_bool 0 tol && Qlt_bool tol value
  | None => false
  end.

(** What a criterion adds to the penalty pool: its severity when it exceeds
    its tolerance, nothing otherwise. *)
Definition contribution_spec (value : Q) (tolerance : option Q) : Q :=
  match tolerance with
  | Some tol => if exceeds_spec value tolerance then severity_spec value tol else 0
  | None => 0
  end.

(** The pool: delta, DTE and beta, and no other criterion. *)
Definition penaltyPool_spec (tolerances : option Tolerances) (t : Trade) (d : Q) : Q :=
  contribution_spec (delta t) (field maxDelta tolerances)
  + contribution_spec d (field maxDTE tolerances)
  + contribution_spec (beta t) (field maxBeta tolerances).

(** The collateral and support tiers. *)
Definition collateralPoints (collateral : Q) : Q :=
  if Qlt_bool collateral 20000 then 10
  else if Qle_bool collateral 50000 then 5
  else 2.

Definition supportPoints (variance : Q) : Q :=
  if Qle_bool 10 variance then 10
  else if Qle_bool 5 variance then 5
  else 2.

(** The points earned, and the points available, over a breakdown. *)
Definition sumEarned (parts : list Part.t) : num :=
  fold_left (fun s c => nadd s (Part.earned c)) parts (Fin 0).

Definition sumMax (parts : list Part.t) : Q :=
  fold_left (fun s c => s + Part.max c) parts 0.

(** [0 <= earned <= max], as the comparisons of the program. *)
Definition partOk (c : Part.t) : bool :=
  nle (Fin 0) (Part.earned c) && nle (Part.earned c) (Fin (Part.max c)).

(** No tolerance field is a number (the object may also be missing). *)
Definition noneSet (tolerances : option Tolerances) : bool :=
  match field maxDTE tolerances, field minROI tolerances,
        field maxBeta tolerances, field maxDelta tolerances with
  | None, None, None, None => true
  | _, _, _, _ => false
  end.

(** ** Invariants of the scoring stage *)

(** [Inv a s p]: the score so far is the number [s], within the points
    possible so far; the penalty pool is the number [p], not negative;
    every component recorded so far has [0 <= earned <= max]. *)
Record Inv (a : Acc) (s p : Q) : Prop := {
  inv_score : score a = Fin s;
  inv_pool : penaltyPool a = Fin p;
  inv_score_bounds : 0 <= s <= totalPossible a;
  inv_pool_nonneg : 0 <= p;
  inv_parts : forallb partOk (breakdown a) = true
}.

(** A criterion that keeps the invariant and adds [pen] to the pool, up to
    [==]. *)
Definition Step (f : Acc -> Acc) (pen : Q) : Prop :=
  forall a s p, Inv a s p -> exists s' p', Inv (f a) s' p' /\ p' == p + pen.

(** A criterion that leaves the totals alone or records exactly one
    component, under the key [k] and with the weight [W]. *)
Definition Keyed (k : string) (W : Q) (f : Acc -> Acc) : Prop :=
  forall a, f a = a
            \/ exists c pen, Part.key c = k /\ Part.max c = W
                             /\ f a = record c pen a.

(** ** Sample requests *)

(** The trade of the specification's hard-fail example: strike 100, bid 1,
    ten days to expiration, hence an annual ROI of 0.365. *)
Definition exampleTrade : Trade :=
  {| symbol := "XYZ"; tradeDate := "2024-01-01"; expirationDate := "2024-01-11";
     type := put; strike := 100; bid := 1; supportLevel := None;
     beta := 1; delta := 3 # 10 |}.

(** The trade of the specification's partial-credit example: delta 0.6
    against a maximum delta of 0.3. *)
Definition steepTrade : Trade :=
  {| symbol := "XYZ"; tradeDate := "2024-01-01"; expirationDate := "2024-01-11";
     type := call; strike := 100; bid := 1; supportLevel := None;
     beta := 1; delta := 6 # 10 |}.

(** A trade with a comfortable ROI and a strike of 600, which puts 60000 of
    collateral at risk. *)
Definition highCollateralTrade : Trade :=
  {| symbol := "XYZ"; tradeDate := "2024-01-01"; expirationDate := "2024-01-11";
     type := call; strike := 600; bid := 60; supportLevel := None;
     beta := 1; delta := 3 # 10 |}.

(** The hard-fail example with a trade date that does not parse. *)
Definition undatedTrade : Trade :=
  {| symbol := "XYZ"; tradeDate := "n/a"; expirationDate := "2024-01-11";
     type := put; strike := 100; bid := 1; supportLevel := None;
     beta := 1; delta := 3 # 10 |}.

Definition emptyTolerances : Tolerances :=
  {| maxDTE := None; minROI := None; maxBeta := None; maxDelta := None |}.

Definition onlyMinROI (m : Q) : Tolerances :=
  {| maxDTE := None; minROI := Some m; maxBeta := None; maxDelta := None |}.

Definition onlyMaxDelta (m : Q) : Tolerances :=
  {| maxDTE := None; minROI := None; maxBeta := None; maxDelta := Some m |}.

Definition onlyMaxDTE (m : Q) : Tolerances :=
  {| maxDTE := Some m; minROI := None; maxBeta := None; maxDelta := None |}.

(** Every tolerance set, and each ceiling exceeded by [exampleTrade]. *)
Definition sampleTolerances : Tolerances :=
  {| maxDTE := Some 5; minROI := Some (3 # 10); maxBeta := Some (1 # 2);
     maxDelta := Some (2 # 10) |}.

(** ** Which criteria are scored *)

(** A ceiling (delta, DTE, beta) counts when its tolerance is a number above
    zero. *)
Definition gated (tolerance : option Q) : bool :=
  match tolerance with
  | Some tol => Qlt_bool 0 tol
  | None => false
  end.

Definition isSome {A : Type} (o : option A) : bool :=
  match o with
  | Some _ => true
  | None => false
  end.

(** The keys and weights of the criteria whose gate is open, in the order
    in which the program scores them. *)
Definition expectedParts (tolerances : option Tolerances) (t : Trade)
  : list (string * Q) :=
  (if isSome (field minROI tolerances) then [("roi"%string, 35)] else [])
  ++ (if gated (field maxDelta tolerances) then [("delta"%string, 25)] else [])
  ++ (if gated (field maxDTE tolerances) then [("dte"%string, 15)] else [])
  ++ (if gated (field maxBeta tolerances) then [("beta"%string, 5)] else [])
  ++ [("collateral"%string, 10)]
  ++ (if isSome (supportVariancePct t) then [("support"%string, 10)] else []).

Definition keyAndMax (c : Part.t) : string * Q := (Part.key c, Part.max c).

(** No ceiling that counts is exceeded. *)
Definition withinAll (tolerances : option Tolerances) (t : Trade) : bool :=
  negb (exceeds_spec (delta t) (field maxDelta tolerances))
  && match dte t with
     | Fin d => negb (exceeds_spec d (field maxDTE tolerances))
     | NaN => false
     end
  && negb (exceeds_spec (beta t) (field maxBeta tolerances)).


(** Every component recorded so far earns all of its points, and the score
    is the total of the points possible. *)
Definition allFull (a : Acc) : Prop :=
  exists s, score a = Fin s /\ s == totalPossible a
            /\ Forall (fun c => Part.earned c = Fin (Part.max c)) (breakdown a).

(** Tolerances that [exampleTrade] meets. *)
Definition generousTolerances : Tolerances :=
  {| maxDTE := Some 30; minROI := Some (3 # 10); maxBeta := Some 2;
     maxDelta := Some (1 # 2) |}.

(** ** Statements about the earlier evaluator *)




(** [x] is the number [q], up to [==]. *)
Definition isNumber (x : xnum) (q : Q) : Prop :=
  match x with
  | XFin r => r == q
  | _ => False
  end.


(** * Properties *)

(** ** Dates *)

Example parseDate_epoch : parseDate "1970-01-01" = Some 0%Z.
Proof. reflexivity. Qed.

Example parseDate_2024 : parseDate "2024-01-11" = Some 1704931200000%Z.
Proof. reflexivity. Qed.

Example parseDate_leap : parseDate "2024-02-29" = Some 1709164800000%Z
                         /\ parseDate "2023-02-29" = None.
Proof. split; reflexivity. Qed.

(** ** Comparisons of rationals as booleans *)

Lemma Qlt_bool_true (a b : Q) : Qlt_bool a b = true <-> a < b.
Proof.
  unfold Qlt_bool. rewrite negb_true_iff. split; intro H.
  - apply Qnot_le_lt. intro L. apply Qle_bool_iff in L. congruence.
  - destruct (Qle_bool b a) eqn:E; [|reflexivity].
    apply Qle_bool_iff in E. exfalso. apply (Qlt_not_le _ _ H E).
Qed.

Lemma Qlt_bool_false (a b : Q) : Qlt_bool a b = false <-> b <= a.
Proof.
  unfold Qlt_bool. rewrite negb_false_iff. apply Qle_bool_iff.
Qed.

Lemma Qle_bool_false (a b : Q) : Qle_bool a b = false <-> b < a.
Proof.
  rewrite <- Qlt_bool_true. unfold Qlt_bool.
  destruct (Qle_bool a b); simpl; intuition congruence.
Qed.

Lemma Qeq_bool_false (a b : Q) : Qeq_bool a b = false <-> ~ a == b.
Proof.
  split; intro H.
  - intro E. apply Qeq_bool_iff in E. congruence.
  - destruct (Qeq_bool a b) eqn:E; [|reflexivity].
    apply Qeq_bool_iff in E. contradiction.
Qed.

(** Turn every boolean comparison among the hypotheses into its
    proposition. *)
Ltac qprop :=
  repeat match goal with
    | H : Qle_bool _ _ = true |- _ => apply Qle_bool_iff in H
    | H : Qle_bool _ _ = false |- _ => apply Qle_bool_false in H
    | H : Qlt_bool _ _ = true |- _ => apply Qlt_bool_true in H
    | H : Qlt_bool _ _ = false |- _ => apply Qlt_bool_false in H
    | H : Qeq_bool _ _ = true |- _ => apply Qeq_bool_iff in H
    | H : Qeq_bool _ _ = false |- _ => apply Qeq_bool_false in H
    end.

(** ** Trades with valid dates *)

Lemma dteOfTimes_Fin (e s : Z) :
  dteOfTimes (Fin (inject_Z e)) (Fin (inject_Z s)) = Fin (inject_Z (daysBetween e s)).
Proof.
  unfold dteOfTimes, daysBetween, nsub, lift2, ndiv.
  replace (Qeq_bool (inject_Z msPerDay) 0) with false by reflexivity.
  unfold Math_ceil, Math_max. f_equal.
  assert (E : Qceiling ((inject_Z e - inject_Z s) / inject_Z msPerDay)
              = Qceiling (inject_Z (e - s) / inject_Z msPerDay)).
  { apply Qceiling_comp. unfold Z.sub. rewrite inject_Z_plus, inject_Z_opp.
    reflexivity. }
  rewrite E.
  set (c := Qceiling (inject_Z (e - s) / inject_Z msPerDay)).
  destruct (Qle_bool 1 (inject_Z c)) eqn:L; qprop.
  - change 1 with (inject_Z 1) in L. rewrite <- Zle_Qle in L.
    rewrite Z.max_r by exact L. reflexivity.
  - change 1 with (inject_Z 1) in L. rewrite <- Zlt_Qlt in L.
    rewrite Z.max_l by lia. reflexivity.
Qed.

Lemma dte_valid (t : Trade) (e s : Z) :
  parseDate (expirationDate t) = Some e ->
  parseDate (tradeDate t) = Some s ->
  dte t = Fin (inject_Z (daysBetween e s)).
Proof.
  intros He Hs. unfold dte, Date_getTime. rewrite He, Hs.
  apply dteOfTimes_Fin.
Qed.

Lemma daysBetween_pos (e s : Z) : 1 <= inject_Z (daysBetween e s).
Proof.
  change 1 with (inject_Z 1). rewrite <- Zle_Qle.
  unfold daysBetween. lia.
Qed.

Lemma validDates_dte (t : Trade) :
  validDates t = true -> exists d : Q, dte t = Fin d /\ 1 <= d.
Proof.
  unfold validDates. intro V.
  destruct (parseDate (tradeDate t)) as [s|] eqn:Hs; [|discriminate].
  destruct (parseDate (expirationDate t)) as [e|] eqn:He; [|discriminate].
  exists (inject_Z (daysBetween e s)). split.
  - apply dte_valid; assumption.
  - apply daysBetween_pos.
Qed.

Lemma annualROI_Fin (t : Trade) (d : Q) :
  dte t = Fin d -> 1 <= d ->
  annualROI t
  = Fin ((if Qlt_bool 0 (strike t) then bid t / strike t else 0) * (365 / d)).
Proof.
  intros Hd Hp. unfold annualROI, ndiv. rewrite Hd.
  destruct (Qeq_bool d 0) eqn:E; qprop.
  - exfalso. lra.
  - reflexivity.
Qed.

Lemma validDates_annualROI (t : Trade) :
  validDates t = true -> exists r : Q, annualROI t = Fin r.
Proof.
  intro V. destruct (validDates_dte t V) as [d [Hd Hp]].
  eexists. apply annualROI_Fin; eassumption.
Qed.

Lemma validDates_iff_dte (t : Trade) : validDates t = true <-> dte t <> NaN.
Proof.
  split.
  - intro V. destruct (validDates_dte t V) as [d [E _]]. rewrite E. discriminate.
  - unfold validDates, dte, Date_getTime.
    destruct (parseDate (tradeDate t)), (parseDate (expirationDate t));
      cbn; intro H; try reflexivity; exfalso; apply H; reflexivity.
Qed.

(** ** C8: days to expiration *)

(** C8.  When both dates of a trade are valid calendar dates, [dte] is the
    difference of their time values in days, rounded up, and at least 1; it
    is therefore at least 1 also when the expiration is not after the trade
    date, it is not zero, and [365 / dte] in the annual ROI is a genuine
    quotient. *)
Theorem dte_at_least_one (t : Trade) (e s : Z) :
  parseDate (expirationDate t) = Some e ->
  parseDate (tradeDate t) = Some s ->
  dte t = Fin (inject_Z (Z.max 1 (Qceiling (inject_Z (e - s) / inject_Z msPerDay))))
  /\ nge (dte t) (Fin 1) = true
  /\ ((e <= s)%Z -> dte t = Fin 1)
  /\ ~ dte t =n= Fin 0
  /\ ndiv (Fin 365) (dte t) = Fin (365 / inject_Z (daysBetween e s))
  /\ annualROI t
     = Fin ((if Qlt_bool 0 (strike t) then bid t / strike t else 0)
            * (365 / inject_Z (daysBetween e s))).
Proof.
  intros He Hs.
  pose proof (dte_valid t e s He Hs) as D.
  pose proof (daysBetween_pos e s) as P.
  repeat split.
  - exact D.
  - rewrite D. unfold nge, nle. apply Qle_bool_iff. exact P.
  - intro L. rewrite D. unfold daysBetween.
    assert (C : (Qceiling (inject_Z (e - s) / inject_Z msPerDay) <= 0)%Z).
    { rewrite <- (Qceiling_Z 0). apply Qceiling_resp_le.
      apply Qle_shift_div_r; [reflexivity|].
      rewrite Qmult_0_l. change (inject_Z (e - s) <= inject_Z 0).
      rewrite <- Zle_Qle. lia. }
    rewrite Z.max_l by lia. reflexivity.
  - rewrite D. simpl. intro Z0. lra.
  - rewrite D. unfold ndiv.
    destruct (Qeq_bool (inject_Z (daysBetween e s)) 0) eqn:E; qprop.
    + exfalso. lra.
    + reflexivity.
  - apply annualROI_Fin; assumption.
Qed.

Lemma dte_at_least_one_witness :
  parseDate (expirationDate exampleTrade) = Some 1704931200000%Z
  /\ parseDate (tradeDate exampleTrade) = Some 1704067200000%Z
  /\ dte exampleTrade = Fin 10
  /\ nge (dte exampleTrade) (Fin 1) = true.
Proof.
  assert (He : parseDate (expirationDate exampleTrade) = Some 1704931200000%Z)
    by reflexivity.
  assert (Hs : parseDate (tradeDate exampleTrade) = Some 1704067200000%Z)
    by reflexivity.
  destruct (dte_at_least_one exampleTrade _ _ He Hs) as [D [G _]].
  repeat split; assumption.
Defined.

(** ** C1: the hard fail *)

(** C1.  A trade whose annual ROI is strictly below the hard-fail threshold
    (the [minROI] tolerance when it is a number, 0.30 otherwise) is returned
    with [hardFail = true], score 0, suggestion Aggressive, a ledger of 35
    possible points and 0 points before penalties, 0 penalties and 0 final
    points, and a breakdown of exactly one component, keyed
    ["roi-hard-fail"], with 35 points available and 0 earned. *)
Theorem hard_fail_short_circuits (tolerances : option Tolerances) (t : Trade)
    (threshold : Q) :
  threshold = match field minROI tolerances with
              | Some m => m
              | None => 30 # 100
              end ->
  nlt (annualROI t) (Fin threshold) = true ->
  let r := evaluateTrade tolerances t in
  Evaluated.hardFail r = true
  /\ Evaluated.score r = Fin 0
  /\ Evaluated.suggestion r = Aggressive
  /\ Evaluated.totalPossible r = 35
  /\ Evaluated.pointsBeforePenalties r = Fin 0
  /\ Evaluated.penaltiesApplied r = Fin 0
  /\ Evaluated.pointsFinal r = Fin 0
  /\ exists c, Evaluated.breakdown r = [c]
               /\ Part.key c = "roi-hard-fail"%string
               /\ Part.max c = 35
               /\ Part.earned c = Fin 0.
Proof.
  intros Ht Hlt r. subst r threshold.
  unfold evaluateTrade, hardFail, hardFailThreshold. rewrite Hlt. cbn.
  repeat split. eexists. repeat split.
Qed.

Lemma hard_fail_short_circuits_witness :
  let r := evaluateTrade (Some (onlyMinROI (1 # 2))) exampleTrade in
  annualROI exampleTrade =n= Fin (365 # 1000)
  /\ nlt (annualROI exampleTrade) (Fin (1 # 2)) = true
  /\ Evaluated.hardFail r = true
  /\ Evaluated.score r = Fin 0
  /\ Evaluated.suggestion r = Aggressive
  /\ List.length (Evaluated.breakdown r) = 1%nat.
Proof.
  assert (H : nlt (annualROI exampleTrade) (Fin (1 # 2)) = true) by reflexivity.
  destruct (hard_fail_short_circuits (Some (onlyMinROI (1 # 2))) exampleTrade
              (1 # 2) eq_refl H) as [A [B [C [_ [_ [_ [_ [c [E _]]]]]]]]].
  cbv zeta. rewrite E.
  repeat split; try assumption; reflexivity.
Defined.

(** ** C6 and C7: the request boundary *)

(** C6.  The handler answers 400 with the error "No trades provided"
    exactly when [trades] is not an array (absent, or any other value) or is
    the empty array; for a non-empty array it answers with the evaluated
    trades, of which there is at least one. *)
Theorem empty_input_rejected :
  (forall body : Body,
      handler body = Status400 "No trades provided"
      <-> (Array_isArray (trades body) = false \/ trades body = JArray []))
  /\ handler {| tolerances := None; trades := JUndefined |}
     = Status400 "No trades provided"
  /\ (forall (tol : option Tolerances) (t : Trade) (rest : list Trade),
         handler {| tolerances := tol; trades := JArray (t :: rest) |}
         = Status200 (evaluateTrade tol t :: map (evaluateTrade tol) rest)).
Proof.
  split; [|split].
  - intros [tol v]. unfold handler. cbn [trades tolerances].
    destruct v as [| | b | q | s | | items]; cbn;
      try (split; [intros _; left; reflexivity | reflexivity]).
    destruct items as [|t rest]; cbn.
    + split; [intros _; right; reflexivity | reflexivity].
    + split; [discriminate | intros [H|H]; discriminate].
  - reflexivity.
  - reflexivity.
Qed.

(** C7.  For a non-empty batch the answer holds one evaluated trade per
    input trade, in the input's order: whatever trades come before and
    after a trade, the output at its position is the evaluation of that
    trade under the tolerances, and nothing else enters it. *)
Theorem results_one_to_one (tol : option Tolerances)
    (before : list Trade) (t : Trade) (after : list Trade) :
  exists results,
    handler {| tolerances := tol; trades := JArray (before ++ t :: after) |}
    = Status200 results
    /\ results = map (evaluateTrade tol) (before ++ t :: after)
    /\ List.length results = List.length (before ++ t :: after)
    /\ nth_error results (List.length before) = Some (evaluateTrade tol t)
    /\ Evaluated.trade (evaluateTrade tol t) = t.
Proof.
  exists (map (evaluateTrade tol) (before ++ t :: after)).
  split; [|split; [|split; [|split]]].
  - unfold handler. cbn [trades tolerances Array_isArray arrayItems negb orb].
    destruct (before ++ t :: after) eqn:E.
    + destruct before; discriminate.
    + reflexivity.
  - reflexivity.
  - apply length_map.
  - rewrite map_app. rewrite nth_error_app2; rewrite length_map; [|lia].
    rewrite Nat.sub_diag. reflexivity.
  - unfold evaluateTrade. destruct (hardFail tol t); reflexivity.
Qed.

(** ** Clamping and the two penalty curves *)

Lemma clamp_code (x : Q) :
  let m := if Qle_bool 1 x then 1 else x in
  (if Qle_bool 0 m then m else 0) == clamp01 x /\ 0 <= clamp01 x <= 1.
Proof.
  unfold clamp01.
  destruct (Q.max_spec 0 (Qmin 1 x)) as [[A B]|[A B]];
    destruct (Q.min_spec 1 x) as [[C D]|[C D]];
    destruct (Qle_bool 1 x) eqn:E1; qprop; cbv zeta;
    match goal with
    | |- context [Qle_bool 0 ?m] => destruct (Qle_bool 0 m) eqn:E0
    end; qprop; rewrite B; rewrite D in *; split; lra.
Qed.

Lemma Math_clamp (x : Q) :
  exists c, Math_max (Fin 0) (Math_min (Fin 1) (Fin x)) = Fin c
            /\ c == clamp01 x /\ 0 <= c <= 1.
Proof.
  unfold Math_max, Math_min. eexists. split; [reflexivity|].
  destruct (clamp_code x) as [E B]. cbv zeta in E.
  split; [exact E|]. rewrite E. exact B.
Qed.

Lemma heavyPenalty_Fin (value tol : Q) :
  0 < tol ->
  exists f, heavyPenalty (Fin value) tol = Fin f
            /\ f == heavyPenalty_spec value tol /\ 0 <= f <= 1.
Proof.
  intro Hp. unfold heavyPenalty, heavyPenalty_spec, nle.
  destruct (Qle_bool value tol) eqn:L.
  - exists 1. repeat split; try reflexivity; lra.
  - qprop. apply Qlt_bool_true in Hp as Hb. rewrite Hb.
    unfold ndiv. destruct (Qeq_bool value 0) eqn:Z; qprop; [lra|].
    unfold nmul, lift2.
    destruct (Math_clamp (tol / value * (tol / value))) as [c [E [Ec B]]].
    exists c. split; [exact E|]. split; [|exact B].
    rewrite Ec. reflexivity.
Qed.

Lemma severity_nonneg (value tol : Q) : 0 <= severity_spec value tol.
Proof. unfold severity_spec. apply Q.le_max_l. Qed.

Lemma addPenalty_Fin (value tol : Q) :
  0 < tol -> tol < value ->
  exists q, addPenaltyFromExceedance (ndiv (Fin value) (Fin tol)) = Fin q
            /\ q == severity_spec value tol /\ 0 <= q.
Proof.
  intros Hp Hx. unfold ndiv.
  destruct (Qeq_bool tol 0) eqn:Z; qprop; [lra|].
  assert (R : 1 < value / tol).
  { apply Qlt_shift_div_l; lra. }
  unfold addPenaltyFromExceedance, nle.
  destruct (Qle_bool (value / tol) 1) eqn:L; qprop; [lra|].
  unfold ndiv. destruct (Qeq_bool (value / tol) 0) eqn:Z2; qprop; [lra|].
  unfold nsub, lift2, Math_max. eexists. split; [reflexivity|].
  unfold severity_spec.
  destruct (Q.max_spec 0 (1 - 1 / (value / tol))) as [[A B]|[A B]];
    rewrite B;
    destruct (Qle_bool 0 (1 - 1 / (value / tol))) eqn:E0; qprop;
    split; lra.
Qed.

(** ** The running totals *)

Lemma Inv_acc0 : Inv acc0 0 0.
Proof. constructor; cbn; try reflexivity; lra. Qed.

Lemma Inv_record (a : Acc) (s p : Q) (c : Part.t) (e q : Q) :
  Inv a s p ->
  Part.earned c = Fin e -> 0 <= e <= Part.max c -> 0 <= q ->
  Inv (record c (Fin q) a) (s + e) (p + q).
Proof.
  intros [Hs Hp Hb Hn Hf] He Hr Hq. constructor; cbn.
  - rewrite Hs, He. reflexivity.
  - rewrite Hp. reflexivity.
  - lra.
  - lra.
  - rewrite forallb_app, Hf. cbn. unfold partOk. rewrite He. cbn.
    destruct Hr as [R1 R2].
    apply Qle_bool_iff in R1. apply Qle_bool_iff in R2.
    rewrite R1, R2. reflexivity.
Qed.

Lemma Step_skip (pen : Q) : pen == 0 -> Step (fun a => a) pen.
Proof.
  intros Z a s p I. exists s, p. split; [exact I|]. rewrite Z. lra.
Qed.

Lemma Step_record (c : Part.t) (e q pen : Q) :
  Part.earned c = Fin e -> 0 <= e <= Part.max c -> 0 <= q -> q == pen ->
  Step (record c (Fin q)) pen.
Proof.
  intros He Hr Hq Hpen a s p I. exists (s + e), (p + q). split.
  - apply Inv_record; assumption.
  - rewrite Hpen. reflexivity.
Qed.

(** With a number for the annual ROI and no hard fail, the ROI criterion
    earns all of its points or is skipped. *)
Lemma Step_scoreROI (tolerances : option Tolerances) (r : Q) :
  nlt (Fin r) (Fin (hardFailThreshold tolerances)) = false ->
  Step (scoreROI tolerances (Fin r)) 0.
Proof.
  unfold hardFailThreshold, scoreROI, nlt, nge, nle.
  destruct (field minROI tolerances) as [m|]; intro H.
  - qprop. apply Qle_bool_iff in H. rewrite H.
    eapply Step_record; cbn; try reflexivity; lra.
  - apply Step_skip. reflexivity.
Qed.

Lemma Step_scoreCeiling (key label : string) (W value : Q)
    (tolerance : option Q) (within : list NotePiece)
    (exceeds : Q -> list NotePiece) :
  0 <= W ->
  Step (scoreCeiling key label W (Fin value) tolerance within exceeds)
       (contribution_spec value tolerance).
Proof.
  intro HW. unfold scoreCeiling, contribution_spec, exceeds_spec.
  destruct tolerance as [tol|]; [|apply Step_skip; reflexivity].
  destruct (Qlt_bool 0 tol) eqn:G; cbn [andb];
    [|apply Step_skip; reflexivity].
  unfold nle at 1. destruct (Qle_bool value tol) eqn:L.
  - qprop. apply Qlt_bool_false in L. rewrite L.
    eapply Step_record; cbn; try reflexivity; lra.
  - qprop. apply Qlt_bool_true in L as Lb. rewrite Lb.
    destruct (heavyPenalty_Fin value tol G) as [f [Ef [_ Bf]]].
    destruct (addPenalty_Fin value tol G L) as [q [Eq [Eqs Bq]]].
    rewrite Ef, Eq. cbn [nmul lift2].
    eapply Step_record; cbn; try reflexivity; try assumption.
    split; [apply Qmult_le_0_compat; lra|].
    rewrite <- (Qmult_1_r W) at 2.
    apply Qmult_le_compat_nonneg; split; lra.
Qed.

Lemma Step_scoreCollateral (collateral : Q) : Step (scoreCollateral collateral) 0.
Proof.
  unfold scoreCollateral.
  destruct (Qlt_bool collateral 20000); [|destruct (Qle_bool collateral 50000)];
    eapply Step_record; cbn; try reflexivity; lra.
Qed.

Lemma Step_scoreSupport (support : option Q) : Step (scoreSupport support) 0.
Proof.
  unfold scoreSupport. destruct support as [v|]; [|apply Step_skip; reflexivity].
  destruct (Qle_bool 10 v); [|destruct (Qle_bool 5 v)];
    eapply Step_record; cbn; try reflexivity; lra.
Qed.

Lemma Step_compose (f g : Acc -> Acc) (pf pg : Q) :
  Step f pf -> Step g pg -> Step (fun a => g (f a)) (pf + pg).
Proof.
  intros Hf Hg a s p I.
  destruct (Hf a s p I) as [s1 [p1 [I1 E1]]].
  destruct (Hg (f a) s1 p1 I1) as [s2 [p2 [I2 E2]]].
  exists s2, p2. split; [exact I2|]. rewrite E2, E1. lra.
Qed.

(** ** Rounding at the output boundary *)

Lemma pow10_pos (f : nat) : 0 < pow10 f.
Proof.
  unfold pow10. change 0 with (inject_Z 0). rewrite <- Zlt_Qlt.
  apply Z.pow_pos_nonneg; lia.
Qed.

Lemma toFixedQ_small (f : nat) (x : Q) :
  0 <= x -> x < pow10 21 ->
  toFixedQ f x = inject_Z (roundHalfUp (x * pow10 f)) / pow10 f.
Proof.
  intros H0 H1. unfold toFixedQ.
  destruct (Qle_bool (pow10 21) (Qabs x)) eqn:A; qprop.
  - exfalso. rewrite Qabs_pos in A by exact H0. lra.
  - destruct (Qlt_bool x 0) eqn:N; qprop; [lra | reflexivity].
Qed.

Lemma toFixedQ_monotone (f : nat) (x y : Q) :
  0 <= x -> x <= y -> y < pow10 21 -> toFixedQ f x <= toFixedQ f y.
Proof.
  intros H0 Hxy Hy.
  rewrite (toFixedQ_small f x), (toFixedQ_small f y) by lra.
  pose proof (pow10_pos f) as P.
  apply Qmult_le_compat_r; [|apply Qlt_le_weak, Qinv_lt_0_compat, P].
  rewrite <- Zle_Qle. unfold roundHalfUp. apply Qfloor_resp_le.
  apply Qplus_le_l. apply Qmult_le_compat_r; lra.
Qed.

Lemma toFixedQ_percent (x : Q) :
  0 <= x <= 100 -> 0 <= toFixedQ 1 x <= 100.
Proof.
  intros [H0 H1].
  assert (B : 100 < pow10 21) by reflexivity.
  split.
  - apply Qle_trans with (toFixedQ 1 0); [discriminate|].
    apply toFixedQ_monotone; lra.
  - apply Qle_trans with (toFixedQ 1 100).
    + apply toFixedQ_monotone; lra.
    + discriminate.
Qed.

(** ** The ledger of a scored trade *)

Lemma penaltiesApplied_Fin (a : Acc) (s p : Q) :
  Inv a s p ->
  exists pa, penaltiesApplied a = Fin pa
             /\ pa == Qmin 15 (15 * clamp01 p) /\ 0 <= pa <= 15.
Proof.
  intros [_ Hp _ _ _]. unfold penaltiesApplied, maxPenaltyPool. rewrite Hp.
  destruct (Math_clamp p) as [c [E [Ec B]]]. rewrite E.
  cbn [nmul lift2 Math_min]. eexists. split; [reflexivity|].
  rewrite <- Ec.
  destruct (Q.min_spec 15 (15 * c)) as [[A R]|[A R]]; rewrite R;
    destruct (Qle_bool 15 (15 * c)) eqn:L; qprop; split; lra.
Qed.

Lemma pointsFinal_Fin (a : Acc) (s p pa : Q) :
  Inv a s p -> penaltiesApplied a = Fin pa -> 0 <= pa ->
  exists pf, pointsFinal a = Fin pf
             /\ pf == Qmax 0 (s - pa) /\ 0 <= pf <= s.
Proof.
  intros [Hs _ Hb _ _] Hpa H0. unfold pointsFinal. rewrite Hs, Hpa.
  cbn [nsub lift2 Math_max]. eexists. split; [reflexivity|].
  destruct (Q.max_spec 0 (s - pa)) as [[A R]|[A R]]; rewrite R;
    destruct (Qle_bool 0 (s - pa)) eqn:L; qprop; split; lra.
Qed.

Lemma finalScore_Fin (a : Acc) (s p : Q) :
  Inv a s p ->
  exists fs, finalScore a = Fin fs /\ 0 <= fs <= 100.
Proof.
  intro I.
  destruct (penaltiesApplied_Fin a s p I) as [pa [Hpa [_ Bpa]]].
  destruct (pointsFinal_Fin a s p pa I Hpa (proj1 Bpa)) as [pf [Hpf [_ Bpf]]].
  destruct I as [_ _ Hb _ _].
  unfold finalScore. rewrite Hpf.
  destruct (Qlt_bool 0 (totalPossible a)) eqn:G; qprop.
  - unfold ndiv. destruct (Qeq_bool (totalPossible a) 0) eqn:Z; qprop; [lra|].
    cbn [nmul lift2]. eexists. split; [reflexivity|].
    assert (R : 0 <= pf / totalPossible a <= 1).
    { split.
      - apply Qle_shift_div_l; lra.
      - apply Qle_shift_div_r; lra. }
    lra.
  - exists 100. split; [reflexivity | lra].
Qed.

(** The scoring stage of a well-formed trade that is not hard-failed. *)
Lemma scoring_Inv (tolerances : option Tolerances) (t : Trade) :
  validDates t = true -> hardFail tolerances t = false ->
  exists d s p,
    dte t = Fin d /\ 1 <= d
    /\ Inv (scoring tolerances t) s p
    /\ p == penaltyPool_spec tolerances t d.
Proof.
  intros V H.
  destruct (validDates_dte t V) as [d [Hd Hp]].
  pose proof (annualROI_Fin t d Hd Hp) as Hr.
  unfold hardFail in H. rewrite Hr in H.
  unfold scoring. rewrite Hd, Hr.
  pose proof (Step_scoreROI tolerances _ H) as S1.
  assert (S2 : Step (scoreDelta tolerances t)
                 (contribution_spec (delta t) (field maxDelta tolerances)))
    by (apply Step_scoreCeiling; lra).
  assert (S3 : Step (scoreDTE tolerances (Fin d))
                 (contribution_spec d (field maxDTE tolerances)))
    by (apply Step_scoreCeiling; lra).
  assert (S4 : Step (scoreBeta tolerances t)
                 (contribution_spec (beta t) (field maxBeta tolerances)))
    by (apply Step_scoreCeiling; lra).
  pose proof (Step_scoreCollateral (collateralAtRisk t)) as S5.
  pose proof (Step_scoreSupport (supportVariancePct t)) as S6.
  pose proof (Step_compose _ _ _ _
                (Step_compose _ _ _ _
                   (Step_compose _ _ _ _
                      (Step_compose _ _ _ _
                         (Step_compose _ _ _ _ S1 S2) S3) S4) S5) S6) as S.
  destruct (S acc0 0 0 Inv_acc0) as [s [p [I E]]].
  cbv beta in I. exists d, s, p.
  split; [reflexivity|]. split; [exact Hp|]. split; [exact I|].
  rewrite E. unfold penaltyPool_spec. lra.
Qed.

(** ** The shape of a criterion *)

Ltac recorded :=
  do 2 eexists; split; [|split]; [ | | reflexivity]; reflexivity.

Lemma Keyed_scoreROI (tolerances : option Tolerances) (roi : num) :
  Keyed "roi" 35 (scoreROI tolerances roi).
Proof.
  intro a. unfold scoreROI.
  destruct (field minROI tolerances) as [m|]; [|left; reflexivity].
  right. destruct (nge roi (Fin m)); recorded.
Qed.

Lemma Keyed_scoreCeiling (key label : string) (W : Q) (value : num)
    (tolerance : option Q) (within : list NotePiece)
    (exceeds : Q -> list NotePiece) :
  Keyed key W (scoreCeiling key label W value tolerance within exceeds).
Proof.
  intro a. unfold scoreCeiling.
  destruct tolerance as [tol|]; [|left; reflexivity].
  destruct (Qlt_bool 0 tol); [|left; reflexivity].
  right. destruct (nle value (Fin tol)); recorded.
Qed.

Lemma Keyed_scoreCollateral (collateral : Q) :
  Keyed "collateral" 10 (scoreCollateral collateral).
Proof.
  intro a. unfold scoreCollateral. right.
  destruct (Qlt_bool collateral 20000); [|destruct (Qle_bool collateral 50000)];
    recorded.
Qed.

Lemma Keyed_scoreSupport (support : option Q) :
  Keyed "support" 10 (scoreSupport support).
Proof.
  intro a. unfold scoreSupport.
  destruct support as [v|]; [|left; reflexivity].
  right. destruct (Qle_bool 10 v); [|destruct (Qle_bool 5 v)];
    recorded.
Qed.

(** What a keyed step does to the breakdown and to the points possible. *)
Lemma Keyed_breakdown (k : string) (W : Q) (f : Acc -> Acc) (a : Acc) :
  Keyed k W f ->
  exists added, breakdown (f a) = breakdown a ++ added
                /\ Forall (fun c => Part.key c = k) added.
Proof.
  intro K. destruct (K a) as [E | [c [pen [Hk [_ E]]]]]; rewrite E.
  - exists []. split; [symmetry; apply app_nil_r | constructor].
  - exists [c]. split; [reflexivity | repeat constructor; exact Hk].
Qed.

Lemma Keyed_totalPossible (k : string) (W : Q) (f : Acc -> Acc) (a : Acc) :
  0 <= W -> Keyed k W f ->
  totalPossible a <= totalPossible (f a) <= totalPossible a + W.
Proof.
  intros HW K. destruct (K a) as [E | [c [pen [_ [Hm E]]]]]; rewrite E.
  - lra.
  - cbn. rewrite Hm. lra.
Qed.

Lemma Keyed_sums (k : string) (W : Q) (f : Acc -> Acc) (a : Acc) :
  Keyed k W f ->
  score a = sumEarned (breakdown a) -> score (f a) = sumEarned (breakdown (f a)).
Proof.
  intros K S. destruct (K a) as [E | [c [pen [_ [_ E]]]]]; rewrite E.
  - exact S.
  - cbn. unfold sumEarned. rewrite fold_left_app. cbn.
    fold (sumEarned (breakdown a)). rewrite S. reflexivity.
Qed.

(** The score of the scoring stage is the sum of the points earned by the
    components of the breakdown, whatever the trade. *)
Lemma scoring_sums (tolerances : option Tolerances) (t : Trade) :
  score (scoring tolerances t) = sumEarned (breakdown (scoring tolerances t)).
Proof.
  unfold scoring.
  eapply Keyed_sums; [apply Keyed_scoreSupport|].
  eapply Keyed_sums; [apply Keyed_scoreCollateral|].
  eapply Keyed_sums; [apply Keyed_scoreCeiling|].
  eapply Keyed_sums; [apply Keyed_scoreCeiling|].
  eapply Keyed_sums; [apply Keyed_scoreCeiling|].
  eapply Keyed_sums; [apply Keyed_scoreROI|].
  reflexivity.
Qed.

Lemma Keyed_maxes (k : string) (W : Q) (f : Acc -> Acc) (a : Acc) :
  Keyed k W f ->
  totalPossible a = sumMax (breakdown a) ->
  totalPossible (f a) = sumMax (breakdown (f a)).
Proof.
  intros K S. destruct (K a) as [E | [c [pen [_ [_ E]]]]]; rewrite E.
  - exact S.
  - cbn. unfold sumMax. rewrite fold_left_app. cbn.
    fold (sumMax (breakdown a)). rewrite S. reflexivity.
Qed.

(** The points possible are the sum of the weights of the components of
    the breakdown. *)
Lemma scoring_maxes (tolerances : option Tolerances) (t : Trade) :
  totalPossible (scoring tolerances t)
  = sumMax (breakdown (scoring tolerances t)).
Proof.
  unfold scoring.
  eapply Keyed_maxes; [apply Keyed_scoreSupport|].
  eapply Keyed_maxes; [apply Keyed_scoreCollateral|].
  eapply Keyed_maxes; [apply Keyed_scoreCeiling|].
  eapply Keyed_maxes; [apply Keyed_scoreCeiling|].
  eapply Keyed_maxes; [apply Keyed_scoreCeiling|].
  eapply Keyed_maxes; [apply Keyed_scoreROI|].
  reflexivity.
Qed.

(** Collateral always counts: between 10 and 100 points are possible. *)
Lemma scoring_totalPossible (tolerances : option Tolerances) (t : Trade) :
  10 <= totalPossible (scoring tolerances t) <= 100.
Proof.
  unfold scoring.
  set (a1 := scoreROI tolerances (annualROI t) acc0).
  set (a2 := scoreDelta tolerances t a1).
  set (a3 := scoreDTE tolerances (dte t) a2).
  set (a4 := scoreBeta tolerances t a3).
  set (a5 := scoreCollateral (collateralAtRisk t) a4).
  assert (H1 : totalPossible acc0 <= totalPossible a1 <= totalPossible acc0 + 35)
    by (eapply Keyed_totalPossible; [lra | apply Keyed_scoreROI]).
  assert (H2 : totalPossible a1 <= totalPossible a2 <= totalPossible a1 + 25)
    by (eapply Keyed_totalPossible; [lra | apply Keyed_scoreCeiling]).
  assert (H3 : totalPossible a2 <= totalPossible a3 <= totalPossible a2 + 15)
    by (eapply Keyed_totalPossible; [lra | apply Keyed_scoreCeiling]).
  assert (H4 : totalPossible a3 <= totalPossible a4 <= totalPossible a3 + 5)
    by (eapply Keyed_totalPossible; [lra | apply Keyed_scoreCeiling]).
  assert (H5 : totalPossible a5 = totalPossible a4 + 10).
  { subst a5. unfold scoreCollateral.
    destruct (Qlt_bool (collateralAtRisk t) 20000);
      [|destruct (Qle_bool (collateralAtRisk t) 50000)]; reflexivity. }
  assert (H6 : totalPossible a5
               <= totalPossible (scoreSupport (supportVariancePct t) a5)
               <= totalPossible a5 + 10)
    by (eapply Keyed_totalPossible; [lra | apply Keyed_scoreSupport]).
  rewrite H5 in H6. cbn in H1. lra.
Qed.

Lemma partOk_spec (c : Part.t) :
  partOk c = true <-> exists e, Part.earned c = Fin e /\ 0 <= e <= Part.max c.
Proof.
  unfold partOk. split.
  - intro H. apply andb_true_iff in H. destruct H as [H1 H2].
    destruct (Part.earned c) as [|e]; [discriminate|].
    cbn in H1, H2. qprop. exists e. split; [reflexivity | split; assumption].
  - intros [e [E [H1 H2]]]. rewrite E. cbn.
    apply Qle_bool_iff in H1. apply Qle_bool_iff in H2.
    rewrite H1, H2. reflexivity.
Qed.

(** ** C3: the invariants of the ledger *)

(** C3, as stated, fails on a trade whose numeric fields are finite but
    whose trade date does not parse: its [dte] is [NaN], the DTE component
    earns [NaN], and [NaN] reaches the score and the ledger, where every
    comparison is false. *)
Lemma ledger_of_undated_trade :
  let r := evaluateTrade (Some (onlyMaxDTE 5)) undatedTrade in
  Evaluated.hardFail r = false
  /\ (exists c, In c (Evaluated.breakdown r)
                /\ Part.key c = "dte"%string
                /\ Part.max c = 15
                /\ Part.earned c = NaN
                /\ nle (Fin 0) (Part.earned c) = false
                /\ nle (Part.earned c) (Fin (Part.max c)) = false)
  /\ Evaluated.score r = NaN
  /\ nle (Fin 0) (Evaluated.score r) = false
  /\ nle (Evaluated.score r) (Fin 100) = false
  /\ nle (Evaluated.pointsFinal r) (Evaluated.pointsBeforePenalties r) = false.
Proof.
  cbv zeta. split; [reflexivity|]. split; [|repeat split].
  eexists. split; [left; reflexivity|]. repeat split.
Qed.

(** C3, amended.  For a trade with finite numeric fields (rationals, by
    construction) and valid dates, and any tolerances, every component of
    the returned breakdown has [0 <= earned <= max], the returned score
    lies between 0 and 100, and the returned [pointsFinal] is at most the
    returned [pointsBeforePenalties]. *)
Theorem ledger_invariants (tolerances : option Tolerances) (t : Trade) :
  validDates t = true ->
  let r := evaluateTrade tolerances t in
  (forall c, In c (Evaluated.breakdown r) ->
             exists e, Part.earned c = Fin e /\ 0 <= e <= Part.max c)
  /\ (exists s, Evaluated.score r = Fin s /\ 0 <= s <= 100)
  /\ (exists pf pb, Evaluated.pointsFinal r = Fin pf
                    /\ Evaluated.pointsBeforePenalties r = Fin pb
                    /\ pf <= pb).
Proof.
  intros V r. subst r. unfold evaluateTrade.
  destruct (hardFail tolerances t) eqn:H;
    cbn [Evaluated.breakdown Evaluated.score Evaluated.pointsFinal
         Evaluated.pointsBeforePenalties].
  - split; [|split].
    + intros c [E|[]]. subst c. exists 0. cbn. split; [reflexivity | lra].
    + exists 0. split; [reflexivity | lra].
    + exists 0, 0. repeat split; lra.
  - destruct (scoring_Inv tolerances t V H) as [d [s [p [_ [_ [I _]]]]]].
    pose proof (scoring_totalPossible tolerances t) as T.
    destruct (penaltiesApplied_Fin _ s p I) as [pa [Hpa [_ Bpa]]].
    destruct (pointsFinal_Fin _ s p pa I Hpa (proj1 Bpa)) as [pf [Hpf [_ Bpf]]].
    destruct (finalScore_Fin _ s p I) as [fs [Hfs Bfs]].
    split; [|split].
    + intros c Hc. apply partOk_spec.
      pose proof (inv_parts _ _ _ I) as F.
      rewrite forallb_forall in F. apply F, Hc.
    + rewrite Hfs. cbn [toFixed]. eexists. split; [reflexivity|].
      apply toFixedQ_percent, Bfs.
    + unfold pointsBeforePenalties. rewrite Hpf, (inv_score _ _ _ I).
      cbn [toFixed].
      do 2 eexists. split; [reflexivity|]. split; [reflexivity|].
      pose proof (inv_score_bounds _ _ _ I) as B.
      assert (L : 100 < pow10 21) by reflexivity.
      apply toFixedQ_monotone; lra.
Qed.

Lemma ledger_invariants_witness :
  validDates exampleTrade = true
  /\ let r := evaluateTrade (Some sampleTolerances) exampleTrade in
     Evaluated.hardFail r = false
     /\ (exists s, Evaluated.score r = Fin s /\ 0 <= s <= 100)
     /\ (exists pf pb, Evaluated.pointsFinal r = Fin pf
                       /\ Evaluated.pointsBeforePenalties r = Fin pb
                       /\ pf <= pb).
Proof.
  assert (V : validDates exampleTrade = true) by reflexivity.
  split; [exact V|].
  destruct (ledger_invariants (Some sampleTolerances) exampleTrade V)
    as [_ [S P]].
  cbv zeta. split; [reflexivity|]. split; assumption.
Defined.

(** ** C4: the penalty ledger *)

(** C4, as stated, fails on a trade whose date does not parse.  With only
    [maxDTE] set, no criterion strictly exceeds its tolerance ([dte] is
    [NaN], and [NaN > 5] is false; delta and beta have no tolerance), so the
    pool of the claim is the empty sum, 0, and no penalty applies.  The
    program takes the other branch of [dte <= maxDTE] and adds a [NaN]
    severity: the pool, the penalty and the final points are [NaN]. *)
Lemma penalty_pool_of_undated_trade :
  let tolerances := Some (onlyMaxDTE 5) in
  let a := scoring tolerances undatedTrade in
  hardFail tolerances undatedTrade = false
  /\ ngt (dte undatedTrade) (Fin 5) = false
  /\ field maxDelta tolerances = None
  /\ field maxBeta tolerances = None
  /\ penaltyPool a = NaN
  /\ ~ penaltyPool a =n= Fin 0
  /\ penaltiesApplied a = NaN
  /\ pointsFinal a = NaN.
Proof.
  cbv zeta. repeat split. vm_compute. exact (fun H => H).
Qed.

(** C4, amended.  For a trade with valid dates that is not hard-failed: the
    penalty pool
    is the sum, over the delta, DTE and beta criteria whose value strictly
    exceeds a tolerance that is set and positive, of the severity
    [max(0, 1 - 1/(value/tolerance))], nothing else contributing;
    [penaltiesApplied] is [min(15, 15 * clamp01(pool))];
    [pointsBeforePenalties] is the sum of the points earned by the
    components of the breakdown; [pointsFinal] is
    [max(0, pointsBeforePenalties - penaltiesApplied)].  The three ledger
    fields of the answer are these numbers printed with two decimals. *)
Theorem penalty_ledger (tolerances : option Tolerances) (t : Trade) :
  validDates t = true -> hardFail tolerances t = false ->
  let a := scoring tolerances t in
  let r := evaluateTrade tolerances t in
  exists d pool applied before final,
    dte t = Fin d
    /\ penaltyPool a = Fin pool
    /\ pool == contribution_spec (delta t) (field maxDelta tolerances)
               + contribution_spec d (field maxDTE tolerances)
               + contribution_spec (beta t) (field maxBeta tolerances)
    /\ penaltiesApplied a = Fin applied
    /\ applied == Qmin 15 (15 * clamp01 pool)
    /\ pointsBeforePenalties a = Fin before
    /\ sumEarned (Evaluated.breakdown r) = Fin before
    /\ pointsFinal a = Fin final
    /\ final == Qmax 0 (before - applied)
    /\ Evaluated.penaltiesApplied r = Fin (toFixedQ 2 applied)
    /\ Evaluated.pointsBeforePenalties r = Fin (toFixedQ 2 before)
    /\ Evaluated.pointsFinal r = Fin (toFixedQ 2 final).
Proof.
  intros V H a r.
  destruct (scoring_Inv tolerances t V H) as [d [s [p [Hd [_ [I Ep]]]]]].
  fold a in I.
  destruct (penaltiesApplied_Fin a s p I) as [pa [Hpa [Epa Bpa]]].
  destruct (pointsFinal_Fin a s p pa I Hpa (proj1 Bpa)) as [pf [Hpf [Epf _]]].
  pose proof (inv_score _ _ _ I) as Hs.
  pose proof (inv_pool _ _ _ I) as Hp.
  assert (Hr : r = evaluateTrade tolerances t) by reflexivity.
  unfold evaluateTrade in Hr. rewrite H in Hr. fold a in Hr.
  exists d, p, pa, s, pf.
  split; [exact Hd|]. split; [exact Hp|]. split; [exact Ep|].
  split; [exact Hpa|]. split; [exact Epa|]. split; [exact Hs|].
  split.
  { rewrite Hr. cbn [Evaluated.breakdown]. rewrite <- Hs.
    symmetry. apply scoring_sums. }
  split; [exact Hpf|]. split; [exact Epf|].
  rewrite Hr.
  cbn [Evaluated.penaltiesApplied Evaluated.pointsBeforePenalties
       Evaluated.pointsFinal].
  unfold pointsBeforePenalties. rewrite Hpa, Hs, Hpf.
  repeat split.
Qed.

Lemma penalty_ledger_witness :
  validDates exampleTrade = true
  /\ hardFail (Some sampleTolerances) exampleTrade = false
  /\ exists pool applied before final,
       penaltyPool (scoring (Some sampleTolerances) exampleTrade) = Fin pool
       /\ pool == (1 # 3) + (1 # 2) + (1 # 2)
       /\ penaltiesApplied (scoring (Some sampleTolerances) exampleTrade)
          = Fin applied
       /\ applied == 15
       /\ pointsBeforePenalties (scoring (Some sampleTolerances) exampleTrade)
          = Fin before
       /\ pointsFinal (scoring (Some sampleTolerances) exampleTrade) = Fin final
       /\ final == Qmax 0 (before - applied).
Proof.
  assert (V : validDates exampleTrade = true) by reflexivity.
  assert (H : hardFail (Some sampleTolerances) exampleTrade = false)
    by reflexivity.
  split; [exact V|]. split; [exact H|].
  destruct (penalty_ledger (Some sampleTolerances) exampleTrade V H)
    as [d [pool [applied [before [final
         [Hd [Hp [Ep [Ha [Ea [Hb [_ [Hf [Ef _]]]]]]]]]]]]]].
  exists pool, applied, before, final.
  split; [exact Hp|].
  assert (D : d = 10) by (vm_compute in Hd; congruence).
  subst d.
  assert (P : pool == (1 # 3) + (1 # 2) + (1 # 2)).
  { rewrite Ep. vm_compute. reflexivity. }
  split; [exact P|]. split; [exact Ha|].
  split.
  { vm_compute in Ha. injection Ha as <-. reflexivity. }
  split; [exact Hb|]. split; [exact Hf|]. exact Ef.
Defined.

(** ** Components of the breakdown *)

Lemma Keyed_In (k : string) (W : Q) (f : Acc -> Acc) (a : Acc) (c : Part.t) :
  Keyed k W f -> In c (breakdown a) -> In c (breakdown (f a)).
Proof.
  intros K Hc. destruct (Keyed_breakdown k W f a K) as [added [E _]].
  rewrite E. apply in_or_app. left. exact Hc.
Qed.

Lemma Keyed_suffix (k : string) (W : Q) (f : Acc -> Acc) (a : Acc)
    (base rest : list Part.t) (P : Part.t -> Prop) :
  Keyed k W f -> (forall c, Part.key c = k -> P c) ->
  breakdown a = base ++ rest -> Forall P rest ->
  exists rest', breakdown (f a) = base ++ rest' /\ Forall P rest'.
Proof.
  intros K HP E F. destruct (Keyed_breakdown k W f a K) as [added [Ea Fa]].
  exists (rest ++ added). split.
  - rewrite Ea, E. symmetry. apply app_assoc.
  - apply Forall_app. split; [exact F|].
    eapply Forall_impl; [|exact Fa]. intros c Hc. apply HP, Hc.
Qed.

Lemma other_key (k : string) :
  k <> "roi"%string -> forall c, Part.key c = k -> Part.key c <> "roi"%string.
Proof. intros N c E. rewrite E. exact N. Qed.

(** The components that follow the ROI criterion carry other keys. *)
Lemma scoring_after_ROI (tolerances : option Tolerances) (t : Trade) :
  exists rest,
    breakdown (scoring tolerances t)
    = breakdown (scoreROI tolerances (annualROI t) acc0) ++ rest
    /\ Forall (fun c => Part.key c <> "roi"%string) rest.
Proof.
  unfold scoring.
  set (a1 := scoreROI tolerances (annualROI t) acc0).
  assert (S1 : exists rest, breakdown a1 = breakdown a1 ++ rest
                            /\ Forall (fun c => Part.key c <> "roi"%string) rest).
  { exists []. split; [symmetry; apply app_nil_r | constructor]. }
  destruct S1 as [r1 [E1 F1]].
  destruct (Keyed_suffix _ _ (scoreDelta tolerances t) a1 _ _ _
              (Keyed_scoreCeiling _ _ _ _ _ _ _)
              (other_key "delta" ltac:(discriminate)) E1 F1) as [r2 [E2 F2]].
  destruct (Keyed_suffix _ _ (scoreDTE tolerances (dte t)) _ _ _ _
              (Keyed_scoreCeiling _ _ _ _ _ _ _)
              (other_key "dte" ltac:(discriminate)) E2 F2) as [r3 [E3 F3]].
  destruct (Keyed_suffix _ _ (scoreBeta tolerances t) _ _ _ _
              (Keyed_scoreCeiling _ _ _ _ _ _ _)
              (other_key "beta" ltac:(discriminate)) E3 F3) as [r4 [E4 F4]].
  destruct (Keyed_suffix _ _ (scoreCollateral (collateralAtRisk t)) _ _ _ _
              (Keyed_scoreCollateral _)
              (other_key "collateral" ltac:(discriminate)) E4 F4) as [r5 [E5 F5]].
  destruct (Keyed_suffix _ _ (scoreSupport (supportVariancePct t)) _ _ _ _
              (Keyed_scoreSupport _)
              (other_key "support" ltac:(discriminate)) E5 F5) as [r6 [E6 F6]].
  exists r6. split; assumption.
Qed.

(** ** C9: the ROI criterion after the hard-fail check *)

(** C9, as stated, fails on a trade whose date does not parse.  Its [dte]
    and annual ROI are [NaN]; every comparison with [NaN] is false, so the
    trade is not hard-failed ([NaN < minROI] is false) and yet does not
    reach [minROI] either ([NaN >= minROI] is false): the ROI criterion
    takes its partial-credit branch and earns [NaN], not 35. *)
Lemma roi_partial_branch_of_undated_trade :
  let tolerances := Some (onlyMinROI (1 # 2)) in
  let r := evaluateTrade tolerances undatedTrade in
  field minROI tolerances = Some (1 # 2)
  /\ validDates undatedTrade = false
  /\ Evaluated.dte r = NaN
  /\ hardFail tolerances undatedTrade = false
  /\ Evaluated.hardFail r = false
  /\ nge (annualROI undatedTrade) (Fin (1 # 2)) = false
  /\ exists c rest, Evaluated.breakdown r = c :: rest
                    /\ Part.key c = "roi"%string
                    /\ Part.max c = 35
                    /\ Part.earned c = NaN
                    /\ ~ Part.earned c =n= Fin 35
                    /\ Forall (fun c' => Part.key c' <> "roi"%string) rest.
Proof.
  cbv zeta. repeat split. do 2 eexists.
  split; [reflexivity|]. repeat split.
  - vm_compute. exact (fun H => H).
  - repeat constructor. discriminate.
Qed.

(** C9, amended.  For a trade with finite numeric fields (rationals, by
    construction) and valid dates that is not hard-failed, with [minROI]
    set: the annual ROI is a number and reaches [minROI]; the breakdown
    starts with the ROI component of the full-credit branch, 35 earned out
    of 35; and no other component is keyed ["roi"], so the partial-credit
    branch has not run.  Both conditions are needed: the annual ROI is
    [NaN] when a date does not parse, as above, and also when strike and
    bid are both infinite. *)
Theorem roi_full_credit (tolerances : option Tolerances) (t : Trade) (m : Q) :
  validDates t = true ->
  field minROI tolerances = Some m ->
  hardFail tolerances t = false ->
  let r := evaluateTrade tolerances t in
  nge (annualROI t) (Fin m) = true
  /\ exists rest,
       Evaluated.breakdown r
       = Part.Build_t "roi" "Annual ROI" 35 (Fin 35)
           [Lit "Meets or exceeds minimum ROI"] :: rest
       /\ Forall (fun c => Part.key c <> "roi"%string) rest.
Proof.
  intros V Hm H r.
  destruct (validDates_annualROI t V) as [roi Hroi].
  assert (G : nge (annualROI t) (Fin m) = true).
  { unfold hardFail, hardFailThreshold in H. rewrite Hm, Hroi in H.
    rewrite Hroi. cbn in *. qprop. apply Qle_bool_iff. exact H. }
  split; [exact G|].
  destruct (scoring_after_ROI tolerances t) as [rest [E F]].
  exists rest. split; [|exact F].
  subst r. unfold evaluateTrade. rewrite H. cbn [Evaluated.breakdown].
  rewrite E. unfold scoreROI. rewrite Hm, G. reflexivity.
Qed.

Lemma roi_full_credit_witness :
  validDates exampleTrade = true
  /\ field minROI (Some sampleTolerances) = Some (3 # 10)
  /\ hardFail (Some sampleTolerances) exampleTrade = false
  /\ exists c rest,
       Evaluated.breakdown (evaluateTrade (Some sampleTolerances) exampleTrade)
       = c :: rest
       /\ Part.key c = "roi"%string /\ Part.earned c = Fin 35
       /\ Part.max c = 35.
Proof.
  assert (V : validDates exampleTrade = true) by reflexivity.
  assert (M : field minROI (Some sampleTolerances) = Some (3 # 10))
    by reflexivity.
  assert (H : hardFail (Some sampleTolerances) exampleTrade = false)
    by reflexivity.
  split; [exact V|]. split; [exact M|]. split; [exact H|].
  destruct (roi_full_credit (Some sampleTolerances) exampleTrade _ V M H)
    as [_ [rest [E _]]].
  eexists. exists rest. split; [exact E|]. repeat split.
Defined.

(** ** C5: partial credit *)

Lemma scoreDelta_component (tolerances : option Tolerances) (t : Trade)
    (tol : Q) (a : Acc) :
  field maxDelta tolerances = Some tol -> 0 < tol ->
  exists c, In c (breakdown (scoreDelta tolerances t a))
            /\ Part.key c = "delta"%string /\ Part.max c = 25
            /\ Part.earned c =n= Fin (25 * heavyPenalty_spec (delta t) tol).
Proof.
  intros Hf Hp. unfold scoreDelta, scoreCeiling. rewrite Hf.
  apply Qlt_bool_true in Hp as Hb. rewrite Hb.
  unfold nle at 1. unfold heavyPenalty_spec.
  destruct (Qle_bool (delta t) tol) eqn:L.
  - eexists. split; [cbn; apply in_or_app; right; left; reflexivity|].
    cbn. repeat split; try reflexivity.
  - destruct (heavyPenalty_Fin (delta t) tol Hp) as [f [Ef [Es _]]].
    eexists. split; [cbn; apply in_or_app; right; left; reflexivity|].
    cbn [Part.key Part.max Part.earned]. repeat split.
    rewrite Ef. cbn. rewrite Es. unfold heavyPenalty_spec. rewrite L.
    reflexivity.
Qed.

(** C5.  For a trade that is not hard-failed and any value and positive
    tolerance, the partial-credit factor [heavyPenalty] is 1 when the value
    is within the tolerance and [clamp01((tolerance/value)^2)] otherwise
    (on rationals with the specification's formula, and on any JavaScript
    number with the program's clamp); the delta component of the breakdown earns 25 times that factor; with
    delta 0.6 against a maximum of 0.3 this is 25 * 0.25 = 6.25 points. *)
Theorem heavy_penalty_credit (tolerances : option Tolerances) (t : Trade)
    (value tolerance : Q) :
  hardFail tolerances t = false ->
  0 < tolerance ->
  heavyPenalty (Fin value) tolerance =n= Fin (heavyPenalty_spec value tolerance)
  /\ (forall v : num,
        heavyPenalty v tolerance
        = if nle v (Fin tolerance) then Fin 1
          else Math_max (Fin 0)
                 (Math_min (Fin 1)
                    (nmul (ndiv (Fin tolerance) v) (ndiv (Fin tolerance) v))))
  /\ (value <= tolerance -> heavyPenalty (Fin value) tolerance = Fin 1)
  /\ (tolerance < value ->
      heavyPenalty (Fin value) tolerance
      =n= Fin (clamp01 ((tolerance / value) ^ 2)))
  /\ (field maxDelta tolerances = Some tolerance ->
      exists c, In c (Evaluated.breakdown (evaluateTrade tolerances t))
                /\ Part.key c = "delta"%string /\ Part.max c = 25
                /\ Part.earned c
                   =n= Fin (25 * heavyPenalty_spec (delta t) tolerance))
  /\ 25 * heavyPenalty_spec (6 # 10) (3 # 10) == 625 # 100.
Proof.
  intros H Hp.
  destruct (heavyPenalty_Fin value tolerance Hp) as [f [Ef [Es _]]].
  split; [rewrite Ef; exact Es|].
  split.
  { intro v. unfold heavyPenalty. apply Qlt_bool_true in Hp as Hb.
    rewrite Hb. reflexivity. }
  split.
  { intro L. unfold heavyPenalty, nle. apply Qle_bool_iff in L.
    rewrite L. reflexivity. }
  split.
  { intro L. rewrite Ef. cbn. rewrite Es. unfold heavyPenalty_spec.
    apply Qle_bool_false in L. rewrite L. reflexivity. }
  split; [|reflexivity].
  intro Hf. unfold evaluateTrade. rewrite H. cbn [Evaluated.breakdown].
  destruct (scoreDelta_component tolerances t tolerance
              (scoreROI tolerances (annualROI t) acc0) Hf Hp)
    as [c [Hc R]].
  exists c. split; [|exact R]. unfold scoring.
  eapply Keyed_In; [apply Keyed_scoreSupport|].
  eapply Keyed_In; [apply Keyed_scoreCollateral|].
  eapply Keyed_In; [apply Keyed_scoreCeiling|].
  eapply Keyed_In; [apply Keyed_scoreCeiling|].
  exact Hc.
Qed.

Lemma heavy_penalty_credit_witness :
  hardFail (Some (onlyMaxDelta (3 # 10))) steepTrade = false
  /\ 0 < 3 # 10
  /\ heavyPenalty (Fin (6 # 10)) (3 # 10) =n= Fin (1 # 4)
  /\ exists c, In c (Evaluated.breakdown
                       (evaluateTrade (Some (onlyMaxDelta (3 # 10))) steepTrade))
               /\ Part.key c = "delta"%string
               /\ Part.earned c =n= Fin (625 # 100).
Proof.
  assert (H : hardFail (Some (onlyMaxDelta (3 # 10))) steepTrade = false)
    by reflexivity.
  assert (P : 0 < 3 # 10) by reflexivity.
  split; [exact H|]. split; [exact P|].
  destruct (heavy_penalty_credit (Some (onlyMaxDelta (3 # 10))) steepTrade
              (6 # 10) (3 # 10) H P) as [A [_ [_ [_ [B E]]]]].
  split.
  { destruct (heavyPenalty (Fin (6 # 10)) (3 # 10)) as [|f];
      [contradiction|].
    cbn in A |- *. rewrite A. reflexivity. }
  destruct (B eq_refl) as [c [Hc [Hk [_ He]]]].
  exists c. split; [exact Hc|]. split; [exact Hk|].
  destruct (Part.earned c) as [|e]; [contradiction|].
  cbn in He |- *. rewrite He. exact E.
Defined.

(** ** C10 and C2: requests without tolerances *)

Lemma noneSet_fields (tolerances : option Tolerances) :
  noneSet tolerances = true ->
  field maxDTE tolerances = None /\ field minROI tolerances = None
  /\ field maxBeta tolerances = None /\ field maxDelta tolerances = None.
Proof.
  unfold noneSet.
  destruct (field maxDTE tolerances), (field minROI tolerances),
    (field maxBeta tolerances), (field maxDelta tolerances);
    intro H; try discriminate H; repeat split.
Qed.

(** Without tolerances only the collateral and support criteria run. *)
Lemma scoring_noneSet (tolerances : option Tolerances) (t : Trade) :
  noneSet tolerances = true ->
  scoring tolerances t
  = scoreSupport (supportVariancePct t)
      (scoreCollateral (collateralAtRisk t) acc0).
Proof.
  intro N. destruct (noneSet_fields tolerances N) as [A [B [C D]]].
  unfold scoring, scoreROI, scoreDelta, scoreDTE, scoreBeta, scoreCeiling.
  rewrite A, B, C, D. reflexivity.
Qed.

(** C10.  For a trade that is not hard-failed at least 10 points are
    possible, the collateral criterion being scored whatever the
    tolerances; the final score is therefore the quotient
    [pointsFinal / totalPossible * 100], never the fallback 100; and with
    no tolerance set and no support variance the score is 100, 50 or 20,
    by the collateral tier alone. *)
Theorem collateral_always_counts (tolerances : option Tolerances) (t : Trade) :
  hardFail tolerances t = false ->
  let a := scoring tolerances t in
  let r := evaluateTrade tolerances t in
  10 <= Evaluated.totalPossible r
  /\ (exists c, In c (Evaluated.breakdown r)
                /\ Part.key c = "collateral"%string /\ Part.max c = 10)
  /\ Qlt_bool 0 (totalPossible a) = true
  /\ finalScore a = nmul (ndiv (pointsFinal a) (Fin (totalPossible a))) (Fin 100)
  /\ (noneSet tolerances = true -> supportVariancePct t = None ->
      Evaluated.score r
      =n= Fin (if Qlt_bool (collateralAtRisk t) 20000 then 100
               else if Qle_bool (collateralAtRisk t) 50000 then 50
               else 20)).
Proof.
  intros H a r.
  pose proof (scoring_totalPossible tolerances t) as T. fold a in T.
  assert (G : Qlt_bool 0 (totalPossible a) = true)
    by (apply Qlt_bool_true; lra).
  assert (Hr : r = evaluateTrade tolerances t) by reflexivity.
  unfold evaluateTrade in Hr. rewrite H in Hr. fold a in Hr.
  split; [rewrite Hr; cbn; lra|].
  split.
  { rewrite Hr. cbn [Evaluated.breakdown]. subst a. unfold scoring.
    set (a4 := scoreBeta _ _ _).
    assert (C : exists c, In c (breakdown (scoreCollateral (collateralAtRisk t) a4))
                          /\ Part.key c = "collateral"%string
                          /\ Part.max c = 10).
    { unfold scoreCollateral.
      destruct (Qlt_bool (collateralAtRisk t) 20000);
        [|destruct (Qle_bool (collateralAtRisk t) 50000)];
        (eexists; split;
         [cbn; apply in_or_app; right; left; reflexivity | split; reflexivity]). }
    destruct C as [c [Hc K]]. exists c. split; [|exact K].
    eapply Keyed_In; [apply Keyed_scoreSupport | exact Hc]. }
  split; [exact G|].
  split; [unfold finalScore; rewrite G; reflexivity|].
  intros N S. rewrite Hr. cbn [Evaluated.score]. subst a.
  rewrite (scoring_noneSet tolerances t N), S.
  unfold scoreSupport, scoreCollateral.
  destruct (Qlt_bool (collateralAtRisk t) 20000);
    [|destruct (Qle_bool (collateralAtRisk t) 50000)];
    vm_compute; reflexivity.
Qed.

Lemma collateral_always_counts_witness :
  hardFail (Some emptyTolerances) highCollateralTrade = false
  /\ 10 <= Evaluated.totalPossible
             (evaluateTrade (Some emptyTolerances) highCollateralTrade)
  /\ Evaluated.score (evaluateTrade (Some emptyTolerances) highCollateralTrade)
     =n= Fin 20.
Proof.
  assert (H : hardFail (Some emptyTolerances) highCollateralTrade = false)
    by reflexivity.
  split; [exact H|].
  destruct (collateral_always_counts (Some emptyTolerances)
              highCollateralTrade H) as [A [_ [_ [_ B]]]].
  split; [exact A|]. exact (B eq_refl eq_refl).
Defined.

(** C2, as stated, fails: with no tolerance set, a trade that clears the
    default ROI bar but ties up more than 50000 of collateral scores 20,
    not 100. *)
Lemma no_tolerances_score_is_not_100 :
  let r := evaluateTrade (Some emptyTolerances) highCollateralTrade in
  noneSet (Some emptyTolerances) = true
  /\ validDates highCollateralTrade = true
  /\ Evaluated.hardFail r = false
  /\ Evaluated.totalPossible r = 10
  /\ Evaluated.score r =n= Fin 20
  /\ ~ Evaluated.score r =n= Fin 100.
Proof.
  cbv zeta. repeat split; try reflexivity. vm_compute. discriminate.
Qed.

(** C2, amended.  With no tolerance set: a trade whose annual ROI is below
    0.30 is hard-failed and scores 0; any other trade scores the points it
    earns on collateral (and on support variance when that applies) as a
    percentage of the 10 (or 20) points possible, which is 100 exactly when
    every criterion scored earns its full points; the suggestion follows
    from that percentage by the thresholds 90 and 70. *)
Theorem no_tolerances_score (tolerances : option Tolerances) (t : Trade) :
  noneSet tolerances = true ->
  let r := evaluateTrade tolerances t in
  let earned :=
    collateralPoints (collateralAtRisk t)
    + match supportVariancePct t with
      | Some v => supportPoints v
      | None => 0
      end in
  let possible :=
    match supportVariancePct t with
    | Some _ => 20
    | None => 10
    end in
  hardFail tolerances t = nlt (annualROI t) (Fin (30 # 100))
  /\ (hardFail tolerances t = true ->
      Evaluated.score r = Fin 0 /\ Evaluated.suggestion r = Aggressive)
  /\ (hardFail tolerances t = false ->
      Evaluated.score r =n= Fin (earned / possible * 100)
      /\ Evaluated.suggestion r
         = (if Qle_bool 90 (earned / possible * 100) then Conservative
            else if Qle_bool 70 (earned / possible * 100) then Neutral
            else Aggressive)
      /\ (Evaluated.score r =n= Fin 100 <-> earned == possible)).
Proof.
  intros N r earned possible. subst r earned possible.
  destruct (noneSet_fields tolerances N) as [_ [B _]].
  split; [unfold hardFail, hardFailThreshold; rewrite B; reflexivity|].
  split.
  - intro H. unfold evaluateTrade. rewrite H. split; reflexivity.
  - intro H. unfold evaluateTrade. rewrite H.
    cbn [Evaluated.score Evaluated.suggestion].
    rewrite (scoring_noneSet tolerances t N).
    unfold scoreSupport, scoreCollateral, collateralPoints, supportPoints.
    destruct (supportVariancePct t) as [v|];
      [destruct (Qle_bool 10 v); [|destruct (Qle_bool 5 v)]|];
      (destruct (Qlt_bool (collateralAtRisk t) 20000);
       [|destruct (Qle_bool (collateralAtRisk t) 50000)]);
      vm_compute; (split; [reflexivity|]); (split; [reflexivity|]);
      split; intro X; try reflexivity; try discriminate X.
Qed.

Lemma no_tolerances_score_witness :
  noneSet (Some emptyTolerances) = true
  /\ hardFail (Some emptyTolerances) exampleTrade = false
  /\ Evaluated.score (evaluateTrade (Some emptyTolerances) exampleTrade)
     =n= Fin 100
  /\ Evaluated.suggestion (evaluateTrade (Some emptyTolerances) exampleTrade)
     = Conservative.
Proof.
  assert (N : noneSet (Some emptyTolerances) = true) by reflexivity.
  split; [exact N|]. split; [reflexivity|].
  destruct (no_tolerances_score (Some emptyTolerances) exampleTrade N)
    as [_ [_ B]].
  destruct (B eq_refl) as [_ [G I]].
  split; [apply I; reflexivity | exact G].
Defined.

(** * Further properties of the evaluator *)

(** ** The composition of the breakdown *)

Lemma record_parts (c : Part.t) (pen : num) (a : Acc) :
  map keyAndMax (breakdown (record c pen a))
  = map keyAndMax (breakdown a) ++ [keyAndMax c].
Proof. cbn. apply map_app. Qed.

Lemma scoreROI_parts (tolerances : option Tolerances) (roi : num) (a : Acc) :
  map keyAndMax (breakdown (scoreROI tolerances roi a))
  = map keyAndMax (breakdown a)
    ++ (if isSome (field minROI tolerances) then [("roi"%string, 35)] else []).
Proof.
  unfold scoreROI. destruct (field minROI tolerances) as [m|]; cbn [isSome].
  - destruct (nge roi (Fin m)); apply record_parts.
  - symmetry. apply app_nil_r.
Qed.

Lemma scoreCeiling_parts (key label : string) (W : Q) (value : num)
    (tolerance : option Q) (within : list NotePiece)
    (exceeds : Q -> list NotePiece) (a : Acc) :
  map keyAndMax
    (breakdown (scoreCeiling key label W value tolerance within exceeds a))
  = map keyAndMax (breakdown a)
    ++ (if gated tolerance then [(key, W)] else []).
Proof.
  unfold scoreCeiling, gated. destruct tolerance as [tol|].
  - destruct (Qlt_bool 0 tol).
    + destruct (nle value (Fin tol)); apply record_parts.
    + symmetry. apply app_nil_r.
  - symmetry. apply app_nil_r.
Qed.

Lemma scoreCollateral_parts (collateral : Q) (a : Acc) :
  map keyAndMax (breakdown (scoreCollateral collateral a))
  = map keyAndMax (breakdown a) ++ [("collateral"%string, 10)].
Proof.
  unfold scoreCollateral.
  destruct (Qlt_bool collateral 20000); [|destruct (Qle_bool collateral 50000)];
    apply record_parts.
Qed.

Lemma scoreSupport_parts (support : option Q) (a : Acc) :
  map keyAndMax (breakdown (scoreSupport support a))
  = map keyAndMax (breakdown a)
    ++ (if isSome support then [("support"%string, 10)] else []).
Proof.
  unfold scoreSupport. destruct support as [v|]; cbn [isSome].
  - destruct (Qle_bool 10 v); [|destruct (Qle_bool 5 v)]; apply record_parts.
  - symmetry. apply app_nil_r.
Qed.

Lemma scoring_parts (tolerances : option Tolerances) (t : Trade) :
  map keyAndMax (breakdown (scoring tolerances t)) = expectedParts tolerances t.
Proof.
  unfold scoring, scoreDelta, scoreDTE, scoreBeta, expectedParts.
  rewrite scoreSupport_parts, scoreCollateral_parts.
  rewrite !scoreCeiling_parts, scoreROI_parts. cbn [acc0 breakdown map app].
  rewrite <- !app_assoc. reflexivity.
Qed.

Lemma expectedParts_NoDup (b1 b2 b3 b4 b5 : bool) :
  NoDup (map fst
           ((if b1 then [("roi"%string, 35)] else [])
            ++ (if b2 then [("delta"%string, 25)] else [])
            ++ (if b3 then [("dte"%string, 15)] else [])
            ++ (if b4 then [("beta"%string, 5)] else [])
            ++ [("collateral"%string, 10)]
            ++ (if b5 then [("support"%string, 10)] else []))).
Proof.
  destruct b1, b2, b3, b4, b5; cbn;
    repeat (constructor; [cbn; intuition discriminate|]); constructor.
Qed.

(** X2.  The breakdown of a trade that is not hard-failed lists exactly the
    criteria whose gate is open ([minROI] a number; [maxDelta], [maxDTE],
    [maxBeta] numbers above zero; collateral always; support when the
    support variance applies), each once, with its weight (35, 25, 15, 5,
    10, 10), in that order: a tolerance that is missing, zero or negative
    leaves no component, and no key occurs twice. *)
Theorem breakdown_lists_gated_criteria (tolerances : option Tolerances)
    (t : Trade) :
  hardFail tolerances t = false ->
  let r := evaluateTrade tolerances t in
  map keyAndMax (Evaluated.breakdown r) = expectedParts tolerances t
  /\ NoDup (map Part.key (Evaluated.breakdown r))
  /\ (forall c, In c (Evaluated.breakdown r) ->
                Part.key c <> "roi-hard-fail"%string).
Proof.
  intros H r. subst r. unfold evaluateTrade. rewrite H.
  cbn [Evaluated.breakdown].
  pose proof (scoring_parts tolerances t) as P.
  split; [exact P|].
  assert (K : map Part.key (breakdown (scoring tolerances t))
              = map fst (expectedParts tolerances t)).
  { rewrite <- P, map_map. reflexivity. }
  split.
  - rewrite K. apply expectedParts_NoDup.
  - intros c Hc E.
    assert (I : In "roi-hard-fail"%string
                  (map fst (expectedParts tolerances t))).
    { rewrite <- K, <- E. apply in_map, Hc. }
    unfold expectedParts in I.
    destruct (isSome (field minROI tolerances)),
      (gated (field maxDelta tolerances)), (gated (field maxDTE tolerances)),
      (gated (field maxBeta tolerances)), (isSome (supportVariancePct t));
      cbn in I; intuition discriminate.
Qed.

Lemma breakdown_lists_gated_criteria_witness :
  hardFail (Some (onlyMaxDelta (3 # 10))) steepTrade = false
  /\ map Part.key
       (Evaluated.breakdown
          (evaluateTrade (Some (onlyMaxDelta (3 # 10))) steepTrade))
     = ["delta"%string; "collateral"%string].
Proof.
  assert (H : hardFail (Some (onlyMaxDelta (3 # 10))) steepTrade = false)
    by reflexivity.
  split; [exact H|].
  destruct (breakdown_lists_gated_criteria _ _ H) as [P _].
  apply (f_equal (map fst)) in P. rewrite map_map in P. exact P.
Defined.

(** X3.  For every evaluated trade, hard-failed or not, and whatever its
    dates, [totalPossible] is the sum of the weights of the components of
    the returned breakdown, and lies between 10 and 100. *)
Theorem totalPossible_is_sum_of_weights (tolerances : option Tolerances)
    (t : Trade) :
  let r := evaluateTrade tolerances t in
  Evaluated.totalPossible r = sumMax (Evaluated.breakdown r)
  /\ 10 <= Evaluated.totalPossible r <= 100.
Proof.
  cbv zeta. unfold evaluateTrade.
  destruct (hardFail tolerances t);
    cbn [Evaluated.totalPossible Evaluated.breakdown].
  - split; [reflexivity|]. split; discriminate.
  - split; [apply scoring_maxes | apply scoring_totalPossible].
Qed.

(** ** Trades within their tolerances *)

Lemma toFixedQ_eq (f : nat) (x y : Q) :
  0 <= x -> x == y -> x < pow10 21 -> toFixedQ f x == toFixedQ f y.
Proof.
  intros H0 E H1. apply Qle_antisym; apply toFixedQ_monotone; lra.
Qed.

Lemma clamp01_zero (p : Q) : p == 0 -> clamp01 p == 0.
Proof.
  intro E. unfold clamp01.
  destruct (Q.max_spec 0 (Qmin 1 p)) as [[A B]|[A B]];
    destruct (Q.min_spec 1 p) as [[C D]|[C D]]; rewrite B; lra.
Qed.

Lemma allFull_acc0 : allFull acc0.
Proof. exists 0. repeat split. constructor. Qed.

Lemma allFull_record (c : Part.t) (pen : num) (a : Acc) :
  Part.earned c = Fin (Part.max c) -> allFull a -> allFull (record c pen a).
Proof.
  intros E [s [Hs [Ht F]]]. exists (s + Part.max c). cbn. split; [|split].
  - rewrite Hs, E. reflexivity.
  - rewrite Ht. reflexivity.
  - apply Forall_app. split; [exact F | repeat constructor; exact E].
Qed.

Lemma allFull_scoreCeiling (key label : string) (W value : Q)
    (tolerance : option Q) (within : list NotePiece)
    (exceeds : Q -> list NotePiece) (a : Acc) :
  exceeds_spec value tolerance = false -> allFull a ->
  allFull (scoreCeiling key label W (Fin value) tolerance within exceeds a).
Proof.
  unfold exceeds_spec, scoreCeiling. intros X F.
  destruct tolerance as [tol|]; [|exact F].
  destruct (Qlt_bool 0 tol); [|exact F].
  cbn in X. unfold nle. unfold Qlt_bool in X.
  apply negb_false_iff in X. rewrite X.
  apply allFull_record; [reflexivity | exact F].
Qed.

Lemma withinAll_pool (tolerances : option Tolerances) (t : Trade) (d : Q) :
  withinAll tolerances t = true -> dte t = Fin d ->
  exceeds_spec (delta t) (field maxDelta tolerances) = false
  /\ exceeds_spec d (field maxDTE tolerances) = false
  /\ exceeds_spec (beta t) (field maxBeta tolerances) = false
  /\ penaltyPool_spec tolerances t d == 0.
Proof.
  unfold withinAll. intros W Hd. rewrite Hd in W.
  apply andb_true_iff in W. destruct W as [W W3].
  apply andb_true_iff in W. destruct W as [W1 W2].
  apply negb_true_iff in W1. apply negb_true_iff in W2.
  apply negb_true_iff in W3.
  repeat split; try assumption.
  unfold penaltyPool_spec, contribution_spec. rewrite W1, W2, W3.
  destruct (field maxDelta tolerances), (field maxDTE tolerances),
    (field maxBeta tolerances); reflexivity.
Qed.

(** X4.  A trade with finite numeric fields (rationals, by construction)
    and valid dates that is not hard-failed and exceeds none of the
    ceilings that count pays no penalty: the pool and
    [penaltiesApplied] are 0, [pointsFinal] is [pointsBeforePenalties], and
    the ROI, delta, DTE and beta components each earn their full weight.
    If moreover the collateral is below 20000 and the support variance,
    when it applies, is at least 10, the score is 100 and the suggestion
    Conservative. *)
Theorem within_tolerances_no_penalty (tolerances : option Tolerances)
    (t : Trade) :
  validDates t = true ->
  hardFail tolerances t = false ->
  withinAll tolerances t = true ->
  let r := evaluateTrade tolerances t in
  penaltyPool (scoring tolerances t) =n= Fin 0
  /\ Evaluated.penaltiesApplied r =n= Fin 0
  /\ Evaluated.pointsFinal r =n= Evaluated.pointsBeforePenalties r
  /\ (forall c, In c (Evaluated.breakdown r) ->
                Part.key c <> "collateral"%string ->
                Part.key c <> "support"%string ->
                Part.earned c = Fin (Part.max c))
  /\ (collateralAtRisk t < 20000 ->
      match supportVariancePct t with
      | Some v => 10 <= v
      | None => True
      end ->
      Evaluated.score r =n= Fin 100
      /\ Evaluated.suggestion r = Conservative).
Proof.
  intros V H W r.
  destruct (scoring_Inv tolerances t V H) as [d [s [p [Hd [Hd1 [I Ep]]]]]].
  destruct (withinAll_pool tolerances t d W Hd) as [X1 [X2 [X3 P0]]].
  assert (Z : p == 0) by (rewrite Ep; exact P0).
  destruct (penaltiesApplied_Fin _ s p I) as [pa [Hpa [Epa Bpa]]].
  assert (Za : pa == 0).
  { rewrite Epa. pose proof (clamp01_zero p Z) as C.
    destruct (Q.min_spec 15 (15 * clamp01 p)) as [[A B]|[A B]]; rewrite B; lra. }
  destruct (pointsFinal_Fin _ s p pa I Hpa (proj1 Bpa)) as [pf [Hpf [Epf Bpf]]].
  assert (Zf : pf == s).
  { rewrite Epf.
    destruct (Q.max_spec 0 (s - pa)) as [[A B]|[A B]]; rewrite B; lra. }
  pose proof (inv_score _ _ _ I) as Hs.
  pose proof (inv_pool _ _ _ I) as Hp.
  pose proof (inv_score_bounds _ _ _ I) as Bs.
  pose proof (scoring_totalPossible tolerances t) as T.
  assert (L : 100 < pow10 21) by reflexivity.
  (* the four gated criteria earn all their points *)
  pose proof (annualROI_Fin t d Hd Hd1) as Hr.
  set (roi := (if Qlt_bool 0 (strike t) then bid t / strike t else 0) * (365 / d))
    in Hr.
  assert (F1 : allFull (scoreROI tolerances (Fin roi) acc0)).
  { unfold scoreROI. unfold hardFail, hardFailThreshold in H. rewrite Hr in H.
    destruct (field minROI tolerances) as [m|]; [|apply allFull_acc0].
    cbn in H. unfold nge, nle. unfold Qlt_bool in H.
    apply negb_false_iff in H. rewrite H.
    apply allFull_record; [reflexivity | apply allFull_acc0]. }
  assert (F4 : allFull (scoreBeta tolerances t
                          (scoreDTE tolerances (Fin d)
                             (scoreDelta tolerances t
                                (scoreROI tolerances (Fin roi) acc0))))).
  { unfold scoreBeta, scoreDTE, scoreDelta.
    apply allFull_scoreCeiling; [exact X3|].
    apply allFull_scoreCeiling; [exact X2|].
    apply allFull_scoreCeiling; [exact X1|]. exact F1. }
  set (a4 := scoreBeta tolerances t
               (scoreDTE tolerances (Fin d)
                  (scoreDelta tolerances t
                     (scoreROI tolerances (Fin roi) acc0)))) in F4.
  assert (Ea : scoring tolerances t
               = scoreSupport (supportVariancePct t)
                   (scoreCollateral (collateralAtRisk t) a4)).
  { unfold scoring. rewrite Hd, Hr. reflexivity. }
  assert (Hr' : r = evaluateTrade tolerances t) by reflexivity.
  unfold evaluateTrade in Hr'. rewrite H in Hr'.
  split; [rewrite Hp; exact Z|].
  split.
  { rewrite Hr'. cbn [Evaluated.penaltiesApplied]. rewrite Hpa. cbn.
    rewrite (toFixedQ_eq 2 pa 0) by lra. reflexivity. }
  split.
  { rewrite Hr'. cbn [Evaluated.pointsFinal Evaluated.pointsBeforePenalties].
    unfold pointsBeforePenalties. rewrite Hpf, Hs. cbn.
    apply toFixedQ_eq; lra. }
  split.
  { intros c Hc Nc Ns. rewrite Hr' in Hc. cbn [Evaluated.breakdown] in Hc.
    rewrite Ea in Hc.
    destruct F4 as [_ [_ [_ F4]]]. rewrite Forall_forall in F4.
    assert (K : In c (breakdown (scoreCollateral (collateralAtRisk t) a4))
                \/ Part.key c = "support"%string).
    { destruct (Keyed_scoreSupport (supportVariancePct t)
                  (scoreCollateral (collateralAtRisk t) a4))
        as [E | [c' [pen [Hk [_ E]]]]]; rewrite E in Hc.
      - left. exact Hc.
      - cbn in Hc. apply in_app_or in Hc. destruct Hc as [Hc | [Hc | []]].
        + left. exact Hc.
        + right. subst c'. exact Hk. }
    destruct K as [K | K]; [|contradiction].
    destruct (Keyed_scoreCollateral (collateralAtRisk t) a4)
      as [E | [c' [pen [Hk [_ E]]]]]; rewrite E in K.
    - apply F4, K.
    - cbn in K. apply in_app_or in K. destruct K as [K | [K | []]].
      + apply F4, K.
      + subst c'. contradiction. }
  intros C10 S10.
  assert (Fall : allFull (scoring tolerances t)).
  { rewrite Ea. unfold scoreSupport, scoreCollateral.
    apply Qlt_bool_true in C10.
    assert (Fc : allFull
                   (record (Part.Build_t "collateral" "Collateral at Risk" 10
                              (Fin 10) [Lit "Low collateral"]) (Fin 0) a4))
      by (apply allFull_record; [reflexivity | exact F4]).
    rewrite C10.
    destruct (supportVariancePct t) as [v|]; [|exact Fc].
    apply Qle_bool_iff in S10. rewrite S10.
    apply allFull_record; [reflexivity | exact Fc]. }
  destruct Fall as [s' [Hs' [Es' _]]].
  assert (s' = s) by congruence. subst s'.
  assert (G : Qlt_bool 0 (totalPossible (scoring tolerances t)) = true)
    by (apply Qlt_bool_true; lra).
  assert (Efs : finalScore (scoring tolerances t)
                = Fin (pf / totalPossible (scoring tolerances t) * 100)).
  { unfold finalScore. rewrite G, Hpf. unfold ndiv.
    destruct (Qeq_bool (totalPossible (scoring tolerances t)) 0) eqn:E0; qprop;
      [lra | reflexivity]. }
  assert (E100 : pf / totalPossible (scoring tolerances t) * 100 == 100).
  { rewrite Zf, Es'. field. lra. }
  rewrite Hr'. cbn [Evaluated.score Evaluated.suggestion]. rewrite Efs.
  split.
  - cbn. rewrite (toFixedQ_eq 1 _ 100) by lra. reflexivity.
  - unfold suggestionOf, nge, nle.
    assert (Q90 : Qle_bool 90 (pf / totalPossible (scoring tolerances t) * 100)
                  = true) by (apply Qle_bool_iff; lra).
    rewrite Q90. reflexivity.
Qed.

Lemma within_tolerances_no_penalty_witness :
  validDates exampleTrade = true
  /\ hardFail (Some generousTolerances) exampleTrade = false
  /\ withinAll (Some generousTolerances) exampleTrade = true
  /\ Evaluated.penaltiesApplied
       (evaluateTrade (Some generousTolerances) exampleTrade) =n= Fin 0
  /\ Evaluated.score (evaluateTrade (Some generousTolerances) exampleTrade)
     =n= Fin 100
  /\ Evaluated.suggestion (evaluateTrade (Some generousTolerances) exampleTrade)
     = Conservative.
Proof.
  assert (V : validDates exampleTrade = true) by reflexivity.
  assert (H : hardFail (Some generousTolerances) exampleTrade = false)
    by reflexivity.
  assert (W : withinAll (Some generousTolerances) exampleTrade = true)
    by reflexivity.
  split; [exact V|]. split; [exact H|]. split; [exact W|].
  destruct (within_tolerances_no_penalty _ _ V H W) as [_ [A [_ [_ B]]]].
  split; [exact A|]. apply B; [reflexivity | exact I].
Defined.

(** ** The two penalty curves *)

Lemma clamp01_id (y : Q) : 0 <= y <= 1 -> clamp01 y == y.
Proof.
  intros [A B]. unfold clamp01.
  destruct (Q.max_spec 0 (Qmin 1 y)) as [[C D]|[C D]];
    destruct (Q.min_spec 1 y) as [[E F]|[E F]]; rewrite D; lra.
Qed.

Lemma ratio_bounds (value tol : Q) :
  0 < tol -> tol < value -> 0 < tol / value < 1.
Proof.
  intros Hp Hx. split.
  - apply Qlt_shift_div_l; lra.
  - apply Qlt_shift_div_r; lra.
Qed.

Lemma curve_values (value tol : Q) :
  0 < tol -> tol < value ->
  exists f q,
    heavyPenalty (Fin value) tol = Fin f
    /\ addPenaltyFromExceedance (ndiv (Fin value) (Fin tol)) = Fin q
    /\ f == (tol / value) * (tol / value)
    /\ q == 1 - tol / value.
Proof.
  intros Hp Hx.
  destruct (ratio_bounds value tol Hp Hx) as [R0 R1].
  destruct (heavyPenalty_Fin value tol Hp) as [f [Ef [Es _]]].
  destruct (addPenalty_Fin value tol Hp Hx) as [q [Eq [Eqs _]]].
  exists f, q. split; [exact Ef|]. split; [exact Eq|]. split.
  - rewrite Es. unfold heavyPenalty_spec.
    apply Qle_bool_false in Hx. rewrite Hx.
    rewrite clamp01_id.
    + reflexivity.
    + change ((tol / value) ^ 2) with (tol / value * (tol / value)). nra.
  - rewrite Eqs. unfold severity_spec.
    assert (E : 1 / (value / tol) == tol / value) by (field; split; lra).
    destruct (Q.max_spec 0 (1 - 1 / (value / tol))) as [[A B]|[A B]];
      rewrite B; lra.
Qed.

Lemma curve_within (value tol : Q) :
  0 < tol -> value <= tol ->
  heavyPenalty (Fin value) tol = Fin 1
  /\ addPenaltyFromExceedance (ndiv (Fin value) (Fin tol)) = Fin 0.
Proof.
  intros Hp Hw. split.
  - unfold heavyPenalty, nle. apply Qle_bool_iff in Hw. rewrite Hw.
    reflexivity.
  - unfold ndiv.
    assert (Z : Qeq_bool tol 0 = false) by (apply Qeq_bool_false; lra).
    rewrite Z. unfold addPenaltyFromExceedance, nle.
    assert (R : Qle_bool (value / tol) 1 = true).
    { apply Qle_bool_iff. apply Qle_shift_div_r; lra. }
    rewrite R. reflexivity.
Qed.

(** X5.  For a positive tolerance the two curves are monotone over the
    whole range of values and stay within 0 and 1: a larger value earns no
    more credit ([heavyPenalty]) and adds no less severity
    ([addPenaltyFromExceedance] of the ratio to the tolerance); within the
    tolerance the credit factor is 1 and the severity 0. *)
Theorem penalty_curves (tol value value' : Q) :
  0 < tol -> value <= value' ->
  exists f q f' q',
    heavyPenalty (Fin value) tol = Fin f
    /\ addPenaltyFromExceedance (ndiv (Fin value) (Fin tol)) = Fin q
    /\ heavyPenalty (Fin value') tol = Fin f'
    /\ addPenaltyFromExceedance (ndiv (Fin value') (Fin tol)) = Fin q'
    /\ 0 <= f' /\ f' <= f /\ f <= 1
    /\ 0 <= q /\ q <= q' /\ q' <= 1
    /\ (value <= tol -> f = 1 /\ q = 0).
Proof.
  intros Hp Hm.
  destruct (Qlt_le_dec tol value) as [Hx | Hw].
  - (* both values exceed the tolerance *)
    assert (Hx' : tol < value') by lra.
    destruct (curve_values value tol Hp Hx) as [f [q [Ef [Eq [Vf Vq]]]]].
    destruct (curve_values value' tol Hp Hx')
      as [f' [q' [Ef' [Eq' [Vf' Vq']]]]].
    destruct (ratio_bounds value tol Hp Hx) as [R0 R1].
    destruct (ratio_bounds value' tol Hp Hx') as [R0' R1'].
    assert (M : tol / value' <= tol / value).
    { apply Qle_shift_div_r; [lra|].
      assert (E : tol / value * value == tol) by (field; lra).
      nra. }
    exists f, q, f', q'.
    do 10 (split; [first [assumption | nra]|]). intro W. lra.
  - destruct (curve_within value tol Hp Hw) as [Ef Eq].
    destruct (Qlt_le_dec tol value') as [Hx' | Hw'].
    + (* only the larger value exceeds the tolerance *)
      destruct (curve_values value' tol Hp Hx')
        as [f' [q' [Ef' [Eq' [Vf' Vq']]]]].
      destruct (ratio_bounds value' tol Hp Hx') as [R0' R1'].
      exists 1, 0, f', q'.
      do 10 (split; [first [assumption | nra]|]). intros _. split; reflexivity.
    + (* both values are within the tolerance *)
      destruct (curve_within value' tol Hp Hw') as [Ef' Eq'].
      exists 1, 0, 1, 0.
      do 10 (split; [first [assumption | lra]|]). intros _. split; reflexivity.
Qed.

Lemma penalty_curves_witness :
  0 < 3 # 10 /\ 6 # 10 <= 9 # 10
  /\ exists f q f' q',
       heavyPenalty (Fin (6 # 10)) (3 # 10) = Fin f
       /\ addPenaltyFromExceedance (ndiv (Fin (6 # 10)) (Fin (3 # 10))) = Fin q
       /\ heavyPenalty (Fin (9 # 10)) (3 # 10) = Fin f'
       /\ addPenaltyFromExceedance (ndiv (Fin (9 # 10)) (Fin (3 # 10))) = Fin q'
       /\ f' <= f /\ q <= q' /\ f == 1 # 4 /\ q == 1 # 2.
Proof.
  assert (A : 0 < 3 # 10) by reflexivity.
  assert (C : 6 # 10 <= 9 # 10) by discriminate.
  split; [exact A|]. split; [exact C|].
  destruct (penalty_curves (3 # 10) (6 # 10) (9 # 10) A C)
    as [f [q [f' [q' [E1 [E2 [E3 [E4 [_ [M1 [_ [_ [M2 _]]]]]]]]]]]]].
  exists f, q, f', q'.
  split; [exact E1|]. split; [exact E2|]. split; [exact E3|].
  split; [exact E4|]. split; [exact M1|]. split; [exact M2|].
  vm_compute in E1. injection E1 as <-.
  vm_compute in E2. injection E2 as <-.
  split; reflexivity.
Defined.

(** ** The size of the penalty *)

Lemma contribution_bounds (value : Q) (tolerance : option Q) :
  0 <= contribution_spec value tolerance < 1.
Proof.
  unfold contribution_spec, exceeds_spec.
  destruct tolerance as [tol|]; [|split; [lra | reflexivity]].
  destruct (Qlt_bool 0 tol) eqn:G; cbn [andb]; [|split; [lra | reflexivity]].
  destruct (Qlt_bool tol value) eqn:X; [|split; [lra | reflexivity]].
  qprop. destruct (ratio_bounds value tol G X) as [R0 R1].
  unfold severity_spec.
  assert (E : 1 / (value / tol) == tol / value) by (field; split; lra).
  destruct (Q.max_spec 0 (1 - 1 / (value / tol))) as [[A B]|[A B]];
    rewrite B; split; lra.
Qed.

(** X6.  For a trade with finite numeric fields (rationals, by
    construction) and valid dates that is not hard-failed, the penalty is
    capped: [penaltiesApplied] lies between 0 and 15, it is 15 times the
    pool while the pool is at most 1 and exactly 15 from there on, and the
    pool itself is at most 3; the final points are never negative and
    never more than 15 below the points before penalties; and the returned
    [penaltiesApplied] also lies between 0 and 15. *)
Theorem penalty_is_capped (tolerances : option Tolerances) (t : Trade) :
  validDates t = true -> hardFail tolerances t = false ->
  let a := scoring tolerances t in
  exists pool applied before final returned,
    penaltyPool a = Fin pool
    /\ penaltiesApplied a = Fin applied
    /\ pointsBeforePenalties a = Fin before
    /\ pointsFinal a = Fin final
    /\ Evaluated.penaltiesApplied (evaluateTrade tolerances t) = Fin returned
    /\ 0 <= pool <= 3
    /\ 0 <= applied <= 15
    /\ (pool <= 1 -> applied == 15 * pool)
    /\ (1 <= pool -> applied == 15)
    /\ 0 <= final
    /\ before - 15 <= final <= before
    /\ 0 <= returned <= 15.
Proof.
  intros V H a.
  destruct (scoring_Inv tolerances t V H) as [d [s [p [Hd [_ [I Ep]]]]]].
  fold a in I.
  destruct (penaltiesApplied_Fin a s p I) as [pa [Hpa [Epa Bpa]]].
  destruct (pointsFinal_Fin a s p pa I Hpa (proj1 Bpa)) as [pf [Hpf [Epf Bpf]]].
  pose proof (inv_pool_nonneg _ _ _ I) as P0.
  pose proof (contribution_bounds (delta t) (field maxDelta tolerances)) as C1.
  pose proof (contribution_bounds d (field maxDTE tolerances)) as C2.
  pose proof (contribution_bounds (beta t) (field maxBeta tolerances)) as C3.
  unfold penaltyPool_spec in Ep.
  assert (L : 15 < pow10 21) by reflexivity.
  exists p, pa, s, pf, (toFixedQ 2 pa).
  split; [exact (inv_pool _ _ _ I)|]. split; [exact Hpa|].
  split; [exact (inv_score _ _ _ I)|]. split; [exact Hpf|].
  split.
  { unfold evaluateTrade. rewrite H. cbn [Evaluated.penaltiesApplied].
    fold a. rewrite Hpa. reflexivity. }
  split; [lra|]. split; [exact Bpa|].
  split.
  { intro P1. rewrite Epa. rewrite (clamp01_id p) by lra.
    destruct (Q.min_spec 15 (15 * p)) as [[A B]|[A B]]; rewrite B; lra. }
  split.
  { intro P1. rewrite Epa.
    assert (C : clamp01 p == 1).
    { unfold clamp01.
      destruct (Q.max_spec 0 (Qmin 1 p)) as [[A B]|[A B]];
        destruct (Q.min_spec 1 p) as [[C D]|[C D]]; rewrite B; lra. }
    rewrite C.
    destruct (Q.min_spec 15 (15 * 1)) as [[A B]|[A B]]; rewrite B; lra. }
  split; [lra|].
  split.
  { split; [|lra]. rewrite Epf.
    destruct (Q.max_spec 0 (s - pa)) as [[A B]|[A B]]; rewrite B; lra. }
  split.
  - apply Qle_trans with (toFixedQ 2 0); [discriminate|].
    apply toFixedQ_monotone; lra.
  - apply Qle_trans with (toFixedQ 2 15); [|discriminate].
    apply toFixedQ_monotone; lra.
Qed.

Lemma penalty_is_capped_witness :
  validDates exampleTrade = true
  /\ hardFail (Some sampleTolerances) exampleTrade = false
  /\ exists applied returned,
       penaltiesApplied (scoring (Some sampleTolerances) exampleTrade)
       = Fin applied
       /\ Evaluated.penaltiesApplied
            (evaluateTrade (Some sampleTolerances) exampleTrade) = Fin returned
       /\ 0 <= applied <= 15 /\ 0 <= returned <= 15.
Proof.
  assert (V : validDates exampleTrade = true) by reflexivity.
  assert (H : hardFail (Some sampleTolerances) exampleTrade = false)
    by reflexivity.
  split; [exact V|]. split; [exact H|].
  destruct (penalty_is_capped (Some sampleTolerances) exampleTrade V H)
    as [pool [applied [before [final [returned
         [_ [A [_ [_ [R [_ [B [_ [_ [_ [_ C]]]]]]]]]]]]]]]].
  exists applied, returned. repeat split; try assumption; tauto.
Defined.

(** ** Score, bucket and rounding *)






(** ** The hard-fail bar *)

(** X9.  A trade with valid dates and a strike that is not positive has an
    annual ROI of 0 (the division by the strike is skipped) and no support
    variance; whenever the hard-fail threshold is positive, as the default
    0.30 is, it is hard-failed and scores 0. *)
Theorem nonpositive_strike_hard_fails (tolerances : option Tolerances)
    (t : Trade) :
  validDates t = true ->
  strike t <= 0 ->
  0 < hardFailThreshold tolerances ->
  let r := evaluateTrade tolerances t in
  annualROI t =n= Fin 0
  /\ Evaluated.annualROI r =n= Fin 0
  /\ Evaluated.supportVariancePct r = None
  /\ Evaluated.hardFail r = true
  /\ Evaluated.score r = Fin 0
  /\ Evaluated.suggestion r = Aggressive.
Proof.
  intros V S T r.
  destruct (validDates_dte t V) as [d [Hd Hp]].
  pose proof (annualROI_Fin t d Hd Hp) as Hr.
  apply Qlt_bool_false in S as Sb. rewrite Sb in Hr.
  assert (Z : 0 * (365 / d) == 0) by ring.
  assert (HF : hardFail tolerances t = true).
  { unfold hardFail. rewrite Hr. cbn. apply Qlt_bool_true. lra. }
  assert (SV : supportVariancePct t = None).
  { unfold supportVariancePct. rewrite Sb.
    destruct (type t), (supportLevel t); reflexivity. }
  assert (L : 0 < pow10 21) by reflexivity.
  subst r. unfold evaluateTrade. rewrite HF.
  cbn [Evaluated.annualROI Evaluated.supportVariancePct Evaluated.hardFail
       Evaluated.score Evaluated.suggestion].
  rewrite Hr, SV. cbn [toFixed num_eq].
  split; [exact Z|]. split; [|repeat split].
  rewrite (toFixedQ_eq 4 _ 0); [reflexivity | lra | exact Z | lra].
Qed.

(** A trade with a strike of zero. *)
Lemma nonpositive_strike_hard_fails_witness :
  let t := {| symbol := "XYZ"; tradeDate := "2024-01-01";
              expirationDate := "2024-01-11"; type := put; strike := 0;
              bid := 1; supportLevel := Some 90; beta := 1;
              delta := 3 # 10 |} in
  validDates t = true /\ strike t <= 0
  /\ 0 < hardFailThreshold (Some emptyTolerances)
  /\ Evaluated.hardFail (evaluateTrade (Some emptyTolerances) t) = true
  /\ Evaluated.supportVariancePct (evaluateTrade (Some emptyTolerances) t)
     = None.
Proof.
  cbv zeta.
  set (t := {| symbol := "XYZ"; tradeDate := "2024-01-01";
               expirationDate := "2024-01-11"; type := put; strike := 0;
               bid := 1; supportLevel := Some 90; beta := 1;
               delta := 3 # 10 |}).
  assert (V : validDates t = true) by reflexivity.
  assert (S : strike t <= 0) by discriminate.
  assert (T : 0 < hardFailThreshold (Some emptyTolerances)) by reflexivity.
  split; [exact V|]. split; [exact S|]. split; [exact T|].
  destruct (nonpositive_strike_hard_fails (Some emptyTolerances) t V S T)
    as [_ [_ [A [B _]]]].
  split; assumption.
Defined.

(** X10.  For a trade with finite numeric fields (rationals, by
    construction) and valid dates the hard fail is decided by the annual
    ROI alone: the trade is spared exactly when its annual ROI
    reaches the threshold; hence raising [minROI] never spares a trade that
    a lower [minROI] hard-fails. *)
Theorem hard_fail_is_monotone (tol1 tol2 : option Tolerances) (t : Trade)
    (m1 m2 : Q) :
  validDates t = true ->
  field minROI tol1 = Some m1 ->
  field minROI tol2 = Some m2 ->
  m1 <= m2 ->
  (hardFail tol1 t = false <-> nge (annualROI t) (Fin m1) = true)
  /\ (hardFail tol1 t = true -> hardFail tol2 t = true)
  /\ (Evaluated.hardFail (evaluateTrade tol1 t) = true ->
      Evaluated.score (evaluateTrade tol2 t) = Fin 0).
Proof.
  intros V F1 F2 M.
  destruct (validDates_annualROI t V) as [roi Hr].
  unfold hardFail, hardFailThreshold. rewrite F1, F2, Hr. cbn.
  assert (Mono : Qlt_bool roi m1 = true -> Qlt_bool roi m2 = true).
  { intro A. apply Qlt_bool_true in A. apply Qlt_bool_true. lra. }
  split; [|split].
  - unfold Qlt_bool. rewrite negb_false_iff. reflexivity.
  - exact Mono.
  - unfold evaluateTrade, hardFail, hardFailThreshold. rewrite F1, F2, Hr.
    cbn [nlt]. intro A.
    destruct (Qlt_bool roi m1) eqn:E1; [|discriminate A].
    rewrite (Mono eq_refl). reflexivity.
Qed.

Lemma hard_fail_is_monotone_witness :
  validDates exampleTrade = true
  /\ (3 # 10 : Q) <= 1 # 2
  /\ hardFail (Some (onlyMinROI (3 # 10))) exampleTrade = false
  /\ nge (annualROI exampleTrade) (Fin (3 # 10)) = true
  /\ hardFail (Some (onlyMinROI (1 # 2))) exampleTrade = true.
Proof.
  assert (V : validDates exampleTrade = true) by reflexivity.
  assert (M : (3 # 10 : Q) <= 1 # 2) by discriminate.
  split; [exact V|]. split; [exact M|].
  destruct (hard_fail_is_monotone (Some (onlyMinROI (3 # 10)))
              (Some (onlyMinROI (1 # 2))) exampleTrade _ _ V eq_refl eq_refl M)
    as [A _].
  split; [reflexivity|]. split; [apply A; reflexivity | reflexivity].
Defined.

(** ** Whole days *)

Lemma parseDate_whole_days (s : string) (ms : Z) :
  parseDate s = Some ms -> exists day : Z, ms = (day * msPerDay)%Z.
Proof.
  unfold parseDate. intro H.
  destruct (list_ascii_of_string s)
    as [|y1 [|y2 [|y3 [|y4 [|s1 [|m1 [|m2 [|s2 [|d1 [|d2 [|x l]]]]]]]]]]];
    try discriminate H.
  repeat match type of H with
         | context [match digit ?c with _ => _ end] =>
             destruct (digit c); try discriminate H
         end.
  match type of H with
  | (if ?b then _ else _) = _ => destruct b; [|discriminate H]
  end.
  injection H as <-. eexists. reflexivity.
Qed.

(** X11.  For two dates in the [YYYY-MM-DD] form the time values differ by
    a whole number of days, so the rounding up never adds a day: [dte] is
    the number of calendar days from the trade date to the expiration, or 1
    when that is less than one. *)
Theorem dte_counts_calendar_days (t : Trade) (e s : Z) :
  parseDate (expirationDate t) = Some e ->
  parseDate (tradeDate t) = Some s ->
  exists dayE dayS : Z,
    e = (dayE * msPerDay)%Z /\ s = (dayS * msPerDay)%Z
    /\ dte t = Fin (inject_Z (Z.max 1 (dayE - dayS)))
    /\ ((dayS < dayE)%Z -> dte t = Fin (inject_Z (dayE - dayS))).
Proof.
  intros He Hs.
  destruct (parseDate_whole_days _ _ He) as [dayE EE].
  destruct (parseDate_whole_days _ _ Hs) as [dayS ES].
  exists dayE, dayS. split; [exact EE|]. split; [exact ES|].
  assert (D : dte t = Fin (inject_Z (Z.max 1 (dayE - dayS)))).
  { rewrite (dte_valid t e s He Hs). unfold daysBetween. subst e s.
    replace (dayE * msPerDay - dayS * msPerDay)%Z
      with ((dayE - dayS) * msPerDay)%Z by ring.
    rewrite inject_Z_mult.
    assert (Q : inject_Z (dayE - dayS) * inject_Z msPerDay / inject_Z msPerDay
                == inject_Z (dayE - dayS)).
    { field. discriminate. }
    rewrite (Qceiling_comp _ _ Q), Qceiling_Z. reflexivity. }
  split; [exact D|].
  intro L. rewrite D. rewrite Z.max_r by lia. reflexivity.
Qed.

Lemma dte_counts_calendar_days_witness :
  parseDate (expirationDate exampleTrade) = Some 1704931200000%Z
  /\ parseDate (tradeDate exampleTrade) = Some 1704067200000%Z
  /\ exists dayE dayS : Z,
       (dayE - dayS = 10)%Z /\ dte exampleTrade = Fin (inject_Z (dayE - dayS)).
Proof.
  assert (He : parseDate (expirationDate exampleTrade) = Some 1704931200000%Z)
    by reflexivity.
  assert (Hs : parseDate (tradeDate exampleTrade) = Some 1704067200000%Z)
    by reflexivity.
  split; [exact He|]. split; [exact Hs|].
  destruct (dte_counts_calendar_days exampleTrade _ _ He Hs)
    as [dayE [dayS [EE [ES [_ D]]]]].
  exists dayE, dayS.
  assert (X : (dayE - dayS = 10)%Z) by (unfold msPerDay in EE, ES; lia).
  split; [exact X | apply D; lia].
Defined.

(** * Properties of the server *)

(** ** Strings *)

Lemma truthy_spec (s : string) : truthy s = true <-> s <> ""%string.
Proof.
  destruct s; cbn; split; intro H; try discriminate; try reflexivity.
  exfalso. apply H. reflexivity.
Qed.

Lemma endsWith_spec (s suffix : string) :
  endsWith s suffix = true <-> exists p, s = (p ++ suffix)%string.
Proof.
  induction s as [|c rest IH]; cbn [endsWith].
  - rewrite orb_false_r. rewrite String.eqb_eq. split.
    + intro E. exists ""%string. exact E.
    + intros [p E]. destruct p; [exact E | discriminate E].
  - rewrite orb_true_iff, String.eqb_eq, IH. split.
    + intros [E | [p E]].
      * exists ""%string. exact E.
      * exists (String c p). cbn. rewrite E. reflexivity.
    + intros [p E]. destruct p as [|c' p'].
      * left. exact E.
      * right. cbn in E. injection E as _ E. exists p'. exact E.
Qed.

Lemma listIncludes_spec (l : list string) (x : string) :
  listIncludes l x = true <-> In x l.
Proof.
  unfold listIncludes. rewrite existsb_exists. split.
  - intros [y [Hy E]]. apply String.eqb_eq in E. subst y. exact Hy.
  - intro H. exists x. split; [exact H | apply String.eqb_refl].
Qed.

(** ** The later policy *)

Lemma origin_allowed_or_blocked (cfg : Server.Config) (o : string) :
  Server.origin cfg (Some o) = Allowed
  \/ Server.origin cfg (Some o) = Blocked "Not allowed by CORS".
Proof.
  unfold Server.origin.
  destruct (negb (truthy o)); [left; reflexivity|].
  destruct (listIncludes (Server.exactOrigins cfg) o); [left; reflexivity|].
  destruct (truthy (Server.localOrigin cfg)
            && String.eqb o (Server.localOrigin cfg)); [left; reflexivity|].
  destruct (truthy (Server.previewSuffix cfg)
            && endsWith o (Server.previewSuffix cfg));
    [left | right]; reflexivity.
Qed.

(** X12.  The later server lets a request through exactly when it carries
    no origin (or an empty one), or its origin is one of the exact origins,
    or is the local origin when one is configured, or ends with the preview
    suffix when one is configured; every other origin is failed with the
    error "Not allowed by CORS".  An unset (empty) local origin or suffix
    admits nothing, and a configured suffix admits every origin that ends
    with it, whatever comes before. *)
Theorem later_cors_policy (cfg : Server.Config) (o : string) :
  Server.origin cfg None = Allowed
  /\ (Server.origin cfg (Some o) = Allowed
      <-> (o = ""%string
           \/ In o (Server.exactOrigins cfg)
           \/ (Server.localOrigin cfg <> ""%string
               /\ o = Server.localOrigin cfg)
           \/ (Server.previewSuffix cfg <> ""%string
               /\ exists p, o = (p ++ Server.previewSuffix cfg)%string)))
  /\ (Server.origin cfg (Some o) = Allowed
      \/ Server.origin cfg (Some o) = Blocked "Not allowed by CORS")
  /\ (Server.previewSuffix cfg <> ""%string ->
      forall p, Server.origin cfg (Some (p ++ Server.previewSuffix cfg)%string)
                = Allowed).
Proof.
  assert (Main : forall x,
             Server.origin cfg (Some x) = Allowed
             <-> (x = ""%string
                  \/ In x (Server.exactOrigins cfg)
                  \/ (Server.localOrigin cfg <> ""%string
                      /\ x = Server.localOrigin cfg)
                  \/ (Server.previewSuffix cfg <> ""%string
                      /\ exists p, x = (p ++ Server.previewSuffix cfg)%string))).
  { intro x. unfold Server.origin.
    destruct (truthy x) eqn:T; cbn [negb].
    - assert (Nx : x <> ""%string) by (apply truthy_spec; exact T).
      destruct (listIncludes (Server.exactOrigins cfg) x) eqn:L.
      { split; [intros _ | reflexivity].
        right. left. apply listIncludes_spec. exact L. }
      assert (NL : ~ In x (Server.exactOrigins cfg)).
      { intro H. apply listIncludes_spec in H. congruence. }
      destruct (truthy (Server.localOrigin cfg)
                && String.eqb x (Server.localOrigin cfg)) eqn:Lo.
      { split; [intros _ | reflexivity].
        apply andb_true_iff in Lo. destruct Lo as [A B].
        right. right. left. split.
        - apply truthy_spec. exact A.
        - apply String.eqb_eq. exact B. }
      assert (NLo : ~ (Server.localOrigin cfg <> ""%string
                       /\ x = Server.localOrigin cfg)).
      { intros [A B]. apply truthy_spec in A. apply String.eqb_eq in B.
        rewrite A, B in Lo. discriminate Lo. }
      destruct (truthy (Server.previewSuffix cfg)
                && endsWith x (Server.previewSuffix cfg)) eqn:P.
      { split; [intros _ | reflexivity].
        apply andb_true_iff in P. destruct P as [A B].
        right. right. right. split.
        - apply truthy_spec. exact A.
        - apply endsWith_spec. exact B. }
      split; [discriminate|].
      intros [A | [A | [A | [A B]]]]; try contradiction.
      apply truthy_spec in A. apply endsWith_spec in B.
      rewrite A, B in P. discriminate P.
    - split; [intros _ | reflexivity]. left.
      destruct x; [reflexivity | discriminate T]. }
  split; [reflexivity|]. split; [apply Main|]. split.
  - apply origin_allowed_or_blocked.
  - intros N p. apply Main. right. right. right.
    split; [exact N | exists p; reflexivity].
Qed.

(** ** The earlier policy *)

(** X13.  The earlier server lets a request through exactly when it carries
    no origin (or an empty one), or its origin is "http://localhost:3000",
    or is the configured front-end URL; the local origin is admitted
    whatever the environment, and an unset or empty front-end URL admits
    nothing more. *)
Theorem earlier_cors_policy (frontendUrl : option string) (o : string) :
  ServerV1.origin frontendUrl None = Allowed
  /\ ServerV1.origin frontendUrl (Some "http://localhost:3000"%string) = Allowed
  /\ (ServerV1.origin frontendUrl (Some o) = Allowed
      <-> (o = ""%string
           \/ o = "http://localhost:3000"%string
           \/ frontendUrl = Some o))
  /\ (ServerV1.origin frontendUrl (Some o) = Allowed
      \/ ServerV1.origin frontendUrl (Some o)
         = Blocked ("CORS blocked: " ++ o)).
Proof.
  split; [reflexivity|]. split.
  { unfold ServerV1.origin, ServerV1.allowedOrigins. cbn. reflexivity. }
  split.
  - unfold ServerV1.origin.
    destruct (truthy o) eqn:T; cbn [negb orb].
    + assert (No : o <> ""%string) by (apply truthy_spec; exact T).
      destruct (listIncludes (ServerV1.allowedOrigins frontendUrl) o) eqn:L.
      * split; [intros _ | reflexivity].
        apply listIncludes_spec in L. unfold ServerV1.allowedOrigins in L.
        apply filter_In in L. destruct L as [L _].
        destruct L as [L | [L | []]].
        -- right. left. symmetry. exact L.
        -- right. right. destruct frontendUrl as [u|].
           ++ destruct (truthy u); [congruence | congruence].
           ++ congruence.
      * split; [discriminate|].
        intros [A | [A | A]]; [contradiction | | ]; exfalso.
        -- assert (I : listIncludes (ServerV1.allowedOrigins frontendUrl) o
                        = true).
           { apply listIncludes_spec. unfold ServerV1.allowedOrigins.
             apply filter_In. split; [left; symmetry; exact A | exact T]. }
           congruence.
        -- assert (I : listIncludes (ServerV1.allowedOrigins frontendUrl) o
                        = true).
           { apply listIncludes_spec. unfold ServerV1.allowedOrigins.
             apply filter_In. split; [|exact T].
             right. left. subst frontendUrl. rewrite T. reflexivity. }
           congruence.
    + split; [intros _ | reflexivity]. left.
      destruct o; [reflexivity | discriminate T].
  - unfold ServerV1.origin.
    destruct (negb (truthy o)
              || listIncludes (ServerV1.allowedOrigins frontendUrl) o);
      [left | right]; reflexivity.
Qed.

(** ** The error of a blocked origin *)

(** X14.  The error with which the later callback fails an origin carries
    the message "Not allowed by CORS", and the later error handler, given
    that error, recognises it by its message: it answers 403 with the error
    "CORS blocked" and that message as details, not 500.  The earlier
    callback's error carries "CORS blocked: " and the origin, and the
    earlier error handler answers it, like any other error, 500 "Internal
    server error", without the message. *)
Theorem blocked_origin_answers (cfg : Server.Config) (o : option string)
    (m : string) :
  Server.origin cfg o = Blocked m ->
  m = "Not allowed by CORS"%string
  /\ includes m "CORS" = true
  /\ Server.errorHandler (Some m)
     = {| status := 403;
          body := [("error", "CORS blocked");
                   ("details", "Not allowed by CORS")]%string |}
  /\ (forall (frontendUrl : option string) (o' : option string) (m' : string),
         ServerV1.origin frontendUrl o' = Blocked m' ->
         (exists x, o' = Some x /\ m' = ("CORS blocked: " ++ x)%string)
         /\ ServerV1.errorHandler (Some m')
            = {| status := 500;
                 body := [("error", "Internal server error")]%string |}).
Proof.
  intro H.
  assert (E : m = "Not allowed by CORS"%string).
  { destruct o as [x|]; [|discriminate H].
    destruct (origin_allowed_or_blocked cfg x) as [A | B]; congruence. }
  subst m. split; [reflexivity|]. split; [reflexivity|].
  split; [reflexivity|].
  intros frontendUrl o' m' H'. split; [|reflexivity].
  destruct o' as [x|]; [|discriminate H'].
  exists x. split; [reflexivity|].
  unfold ServerV1.origin in H'.
  destruct (negb (truthy x)
            || listIncludes (ServerV1.allowedOrigins frontendUrl) x);
    [discriminate H' | congruence].
Qed.

Lemma blocked_origin_answers_witness :
  let cfg := {| Server.exactOrigins := ["https://app.example.com"%string];
                Server.previewSuffix := ".vercel.app";
                Server.localOrigin := "" |} in
  Server.origin cfg (Some "https://evil.example.org"%string)
  = Blocked "Not allowed by CORS"
  /\ status (Server.errorHandler (Some "Not allowed by CORS"%string)) = 403%Z.
Proof.
  cbv zeta.
  set (cfg := {| Server.exactOrigins := ["https://app.example.com"%string];
                 Server.previewSuffix := ".vercel.app";
                 Server.localOrigin := "" |}).
  assert (H : Server.origin cfg (Some "https://evil.example.org"%string)
              = Blocked "Not allowed by CORS") by reflexivity.
  split; [exact H|].
  destruct (blocked_origin_answers cfg _ _ H) as [_ [_ [E _]]].
  rewrite E. reflexivity.
Defined.

(** * Properties of the earlier evaluator *)

(** ** Without tolerances *)

(** X15.  In the earlier version a tolerances object with no field set
    scores every trade 100 and Green, whatever the trade (its dates need
    not even parse): no criterion counts, and the absence of constraints is
    an automatic pass.  The later version scores the same request by
    collateral, support and the ROI bar instead. *)
Theorem V1_no_tolerances_pass (tolerances : Tolerances) (t : Trade) :
  noneSet (Some tolerances) = true ->
  let r := V1.evaluateTrade tolerances t in
  V1.possible (V1.scoring tolerances t) = 0
  /\ V1.finalScore (V1.scoring tolerances t) = XFin 100
  /\ V1.Result.score r = ToFixed 1 (XFin 100)
  /\ isNumber (valueOf (V1.Result.score r)) 100
  /\ V1.Result.suggestion r = V1.Green.
Proof.
  intros N r. subst r.
  destruct (noneSet_fields (Some tolerances) N) as [A [B [C D]]].
  cbn [field] in A, B, C, D.
  assert (S : V1.scoring tolerances t = {| V1.points := XFin 0; V1.possible := 0 |}).
  { unfold V1.scoring, V1.scoreBeta, V1.scoreDTE, V1.scoreDelta, V1.scoreROI.
    rewrite A, B, C, D. reflexivity. }
  unfold V1.evaluateTrade. rewrite S. cbn. repeat split.
Qed.

Lemma V1_no_tolerances_pass_witness :
  noneSet (Some emptyTolerances) = true
  /\ V1.Result.score (V1.evaluateTrade emptyTolerances highCollateralTrade)
     = ToFixed 1 (XFin 100)
  /\ V1.Result.suggestion (V1.evaluateTrade emptyTolerances highCollateralTrade)
     = V1.Green
  /\ Evaluated.score (evaluateTrade (Some emptyTolerances) highCollateralTrade)
     =n= Fin 20.
Proof.
  assert (N : noneSet (Some emptyTolerances) = true) by reflexivity.
  split; [exact N|].
  destruct (V1_no_tolerances_pass emptyTolerances highCollateralTrade N)
    as [_ [_ [A [_ B]]]].
  split; [exact A|]. split; [exact B|]. reflexivity.
Defined.

(** ** The score stays within 0 and 100 *)





(** ** A negative tolerance *)

(** X17.  The earlier version has no gate on the sign of a tolerance and no
    clamp on the ratio: with a negative [maxDelta] (and no other tolerance)
    a trade whose delta lies between it and zero earns more than the 30
    points possible, and its final score is [100 * maxDelta / delta], above
    100.  The later version does not score the delta criterion for such a
    tolerance. *)
Theorem V1_negative_tolerance_overshoots (t : Trade) (m : Q) :
  m < delta t -> delta t < 0 ->
  (exists fs,
      V1.finalScore (V1.scoring (onlyMaxDelta m) t) = XFin fs
      /\ fs == 100 * (m / delta t)
      /\ 100 < fs)
  /\ V1.Result.suggestion (V1.evaluateTrade (onlyMaxDelta m) t) = V1.Green
  /\ gated (field maxDelta (Some (onlyMaxDelta m))) = false.
Proof.
  intros Hm Hd.
  assert (R : 1 < m / delta t).
  { assert (E : m / delta t == (- m) / (- delta t)) by (field; lra).
    rewrite E. apply Qlt_shift_div_l; lra. }
  assert (A : V1.scoring (onlyMaxDelta m) t
              = {| V1.points := XFin (0 + m / delta t * 30);
                   V1.possible := 0 + 30 |}).
  { unfold V1.scoring, V1.scoreBeta, V1.scoreDTE, V1.scoreDelta, V1.scoreROI.
    cbn [onlyMaxDelta maxBeta maxDTE maxDelta minROI].
    unfold V1.credit. cbn [V1.points V1.possible].
    apply Qle_bool_false in Hm as Hb. rewrite Hb.
    unfold xdiv.
    assert (Z : Qeq_bool (delta t) 0 = false) by (apply Qeq_bool_false; lra).
    rewrite Z. cbn [xmul xmax xle].
    assert (P : Qle_bool 0 (m / delta t * 30) = true)
      by (apply Qle_bool_iff; lra).
    rewrite P. reflexivity. }
  assert (F : V1.finalScore (V1.scoring (onlyMaxDelta m) t)
              = XFin ((0 + m / delta t * 30) / (0 + 30) * 100)).
  { rewrite A. reflexivity. }
  split; [|split].
  - eexists. split; [exact F|]. split; [field; lra|].
    assert (E : (0 + m / delta t * 30) / (0 + 30) * 100 == 100 * (m / delta t))
      by (field; lra).
    rewrite E. lra.
  - unfold V1.evaluateTrade. cbn [V1.Result.suggestion]. rewrite F.
    unfold V1.suggestionOf, xge, xle.
    assert (G : Qle_bool 85 ((0 + m / delta t * 30) / (0 + 30) * 100) = true).
    { apply Qle_bool_iff.
      assert (E : (0 + m / delta t * 30) / (0 + 30) * 100 == 100 * (m / delta t))
        by (field; lra).
      rewrite E. lra. }
    rewrite G. reflexivity.
  - cbn. apply Qlt_bool_false. lra.
Qed.

Lemma V1_negative_tolerance_overshoots_witness :
  let t := {| symbol := "XYZ"; tradeDate := "2024-01-01";
              expirationDate := "2024-01-11"; type := put; strike := 100;
              bid := 1; supportLevel := None; beta := 1;
              delta := - (1 # 10) |} in
  - (1 # 2) < delta t /\ delta t < 0
  /\ exists fs,
       V1.finalScore (V1.scoring (onlyMaxDelta (- (1 # 2))) t) = XFin fs
       /\ fs == 500.
Proof.
  cbv zeta.
  set (t := {| symbol := "XYZ"; tradeDate := "2024-01-01";
               expirationDate := "2024-01-11"; type := put; strike := 100;
               bid := 1; supportLevel := None; beta := 1;
               delta := - (1 # 10) |}).
  assert (A : - (1 # 2) < delta t) by reflexivity.
  assert (B : delta t < 0) by reflexivity.
  split; [exact A|]. split; [exact B|].
  destruct (V1_negative_tolerance_overshoots t _ A B) as [[fs [E [V _]]] _].
  exists fs. split; [exact E|]. rewrite V. reflexivity.
Defined.

(** ** Proportional credit *)

(** X19.  The earlier version has no hard fail: a trade whose annual ROI,
    as the earlier version computes it, is a number below a positive
    [minROI] earns proportional credit.  With no other tolerance set its
    final score is [100 * max(0, annualROI / minROI)], between 0 and 100,
    where the later version returns the score 0 for every trade it
    hard-fails. *)
Theorem V1_low_roi_is_proportional (t : Trade) (m x : Q) :
  0 < m ->
  V1.annualROI t = XFin x ->
  x < m ->
  (exists fs,
      V1.finalScore (V1.scoring (onlyMinROI m) t) = XFin fs
      /\ fs == 100 * Qmax 0 (x / m)
      /\ 0 <= fs <= 100)
  /\ (hardFail (Some (onlyMinROI m)) t = true ->
      Evaluated.score (evaluateTrade (Some (onlyMinROI m)) t) = Fin 0).
Proof.
  intros Hm E1 L.
  assert (Zm : Qeq_bool m 0 = false) by (apply Qeq_bool_false; lra).
  assert (Ge : Qle_bool m x = false) by (apply Qle_bool_false; lra).
  assert (R1 : x / m < 1) by (apply Qlt_shift_div_r; lra).
  assert (A : V1.scoring (onlyMinROI m) t
              = {| V1.points :=
                     XFin (0 + (if Qle_bool 0 (x / m * 40)
                                then x / m * 40 else 0));
                   V1.possible := 0 + 40 |}).
  { unfold V1.scoring, V1.scoreBeta, V1.scoreDTE, V1.scoreDelta, V1.scoreROI.
    cbn [onlyMinROI maxBeta maxDTE maxDelta minROI].
    unfold V1.credit. cbn [V1.points V1.possible].
    rewrite E1. unfold xge, xle. rewrite Ge.
    unfold xdiv. rewrite Zm. cbn [xmul xmax xle xadd].
    destruct (Qle_bool 0 (x / m * 40)); reflexivity. }
  set (q := x / m) in *.
  split.
  - rewrite A. unfold V1.finalScore. cbn [V1.points V1.possible].
    replace (Qlt_bool 0 (0 + 40)) with true by reflexivity.
    unfold xdiv. replace (Qeq_bool (0 + 40) 0) with false by reflexivity.
    cbn [xmul]. eexists. split; [reflexivity|].
    destruct (Qle_bool 0 (q * 40)) eqn:C; qprop.
    + assert (Z1 : (0 + q * 40) / (0 + 40) * 100 == 100 * q) by (field; lra).
      rewrite Z1.
      destruct (Q.max_spec 0 q) as [[P1 P2]|[P1 P2]]; rewrite P2;
        split; lra.
    + assert (Z1 : (0 + 0) / (0 + 40) * 100 == 0) by reflexivity.
      rewrite Z1.
      destruct (Q.max_spec 0 q) as [[P1 P2]|[P1 P2]]; rewrite P2;
        split; lra.
  - intro H. unfold evaluateTrade. rewrite H. reflexivity.
Qed.

Lemma V1_low_roi_is_proportional_witness :
  0 < 1 # 2
  /\ (exists x, V1.annualROI exampleTrade = XFin x /\ x < 1 # 2)
  /\ exists fs,
       V1.finalScore (V1.scoring (onlyMinROI (1 # 2)) exampleTrade) = XFin fs
       /\ fs == 73
       /\ Evaluated.score
            (evaluateTrade (Some (onlyMinROI (1 # 2))) exampleTrade) = Fin 0.
Proof.
  assert (M : 0 < 1 # 2) by reflexivity.
  assert (E : V1.annualROI exampleTrade
              = XFin (1 * 100 / (100 * 100) / 10 * 365)) by reflexivity.
  assert (L : 1 * 100 / (100 * 100) / 10 * 365 < 1 # 2) by reflexivity.
  split; [exact M|]. split; [eexists; split; [exact E | exact L]|].
  destruct (V1_low_roi_is_proportional exampleTrade _ _ M E L)
    as [[fs [F [V _]]] Z].
  exists fs. split; [exact F|]. split; [rewrite V; reflexivity|].
  apply Z. reflexivity.
Defined.

(** ** The earlier route *)

(** X20.  The earlier route rejects the same requests with 400 (a [trades]
    that is not an array, or an empty one); for a non-empty array it
    answers one evaluated trade per input trade, in order, when the body
    has a tolerances object, and throws when it has none, where the later
    route evaluates the trades against the default ROI bar. *)
Theorem V1_route (b : Body) (tol : Tolerances) (t : Trade)
    (rest : list Trade) :
  (V1.handler b = V1.Status400 "No trades provided"
   <-> (Array_isArray (trades b) = false \/ trades b = JArray []))
  /\ V1.handler {| tolerances := Some tol; trades := JArray (t :: rest) |}
     = V1.Status200 (V1.evaluateTrade tol t :: map (V1.evaluateTrade tol) rest)
  /\ V1.handler {| tolerances := None; trades := JArray (t :: rest) |}
     = V1.Throws
  /\ handler {| tolerances := None; trades := JArray (t :: rest) |}
     = Status200 (evaluateTrade None t :: map (evaluateTrade None) rest).
Proof.
  split; [|repeat split].
  destruct b as [tols v]. unfold V1.handler. cbn [trades tolerances].
  destruct v as [| | x | q | s | | items]; cbn;
    try (split; [intros _; left; reflexivity | reflexivity]).
  destruct items as [|t0 rest0]; cbn.
  - split; [intros _; right; reflexivity | reflexivity].
  - destruct tols; (split; [discriminate | intros [H|H]; discriminate]).
Qed.
